(** * Verification of the process- and terminal-control utilities of pymux

    Shallow embedding of [src/pymux/utils.py]: [set_terminal_size],
    [nonblocking], [cached_property], [pty_make_controlling_tty] and
    [daemonize], with [get_default_shell] and the part of
    [getpass.getuser] and [pwd] it relies on.  The operating system calls
    these functions make are modelled as explicit state passing over a
    small kernel state. *)

From stdpp Require Import base gmap strings list.
From Stdlib Require Import ZArith Lia.

Open Scope Z_scope.

(** ** Python exceptions and results shared by the models *)

Inductive py_exc :=
| OverflowError
| OSError (errno : Z)
| AttributeError
| KeyError
| Exception_ (msg : string).

Inductive result (A : Type) :=
| Ok (a : A)
| Err (e : py_exc).
Arguments Ok {A} a.
Arguments Err {A} e.

Definition EBADF : Z := 9.
Definition ENOTTY : Z := 25.
Definition ENXIO : Z := 6.
Definition ENOENT : Z := 2.
Definition EAGAIN : Z := 11.

(** ** set_terminal_size *)
Module Winsize.

(** Python's [array.array('h', xs)]: every element must fit a signed
    C short; otherwise the constructor raises [OverflowError]. *)
Definition short_min : Z := -32768.
Definition short_max : Z := 32767.

Definition fits_short (x : Z) : bool := (short_min <=? x) && (x <=? short_max).

Definition array_h (xs : list Z) : result (list Z) :=
  if forallb fits_short xs then Ok xs else Err OverflowError.

(** Kind of object a descriptor refers to.  Linux handles [TIOCSWINSZ] in
    the generic tty layer ([tty_ioctl] -> [tiocswinsz]) for every tty
    driver, so pty endpoints and other terminals behave alike. *)
Inductive fd_kind := PtyEndpoint | OtherTty | NonTty.

(** The kernel's [struct winsize]: four unsigned 16-bit fields. *)
Record winsize := mk_winsize {
  ws_row : Z; ws_col : Z; ws_xpixel : Z; ws_ypixel : Z }.

Record kernel := mk_kernel {
  k_fds : gmap Z fd_kind;           (* open descriptors *)
  k_winsz : gmap Z winsize;         (* window size of the tty behind a descriptor *)
  k_requests : list (Z * list Z)    (* TIOCSWINSZ buffers that reached the kernel *)
}.

(** The kernel reads the 8-byte buffer as four unsigned shorts: the
    two's-complement bytes of each signed short. *)
Definition u16 (x : Z) : Z := Z.land x 65535.

Definition winsize_of_buf (buf : list Z) : winsize :=
  match buf with
  | [r; c; x; y] => mk_winsize (u16 r) (u16 c) (u16 x) (u16 y)
  | _ => mk_winsize 0 0 0 0
  end.

(** [fcntl.ioctl(fd, termios.TIOCSWINSZ, buf)]. *)
Definition ioctl_TIOCSWINSZ (k : kernel) (fd : Z) (buf : list Z)
  : result unit * kernel :=
  match k_fds k !! fd with
  | None => (Err (OSError EBADF), k)
  | Some NonTty => (Err (OSError ENOTTY), k)
  | Some _ =>
      (Ok tt, mk_kernel (k_fds k) (<[fd := winsize_of_buf buf]> (k_winsz k))
                        (k_requests k ++ [(fd, buf)]))
  end.

(** [set_terminal_size(stdout_fileno, rows, cols)]. *)
Definition set_terminal_size (k : kernel) (stdout_fileno rows cols : Z)
  : result unit * kernel :=
  match array_h [rows; cols; 0; 0] with
  | Err e => (Err e, k)
  | Ok buf => ioctl_TIOCSWINSZ k stdout_fileno buf
  end.

(** [os.close(fd)] on the kernel model. *)
Definition close (k : kernel) (fd : Z) : kernel :=
  mk_kernel (delete fd (k_fds k)) (k_winsz k) (k_requests k).

End Winsize.

(** ** nonblocking *)
Module NonBlocking.

(** Linux flag values.  [F_SETFL] only changes the file status flags in
    [setfl_mask] (O_APPEND, O_NONBLOCK, O_ASYNC, O_DIRECT, O_NOATIME); the
    access mode and the other bits reported by [F_GETFL] are kept. *)
Definition O_NONBLOCK : Z := 2048.
Definition setfl_mask : Z := 1024 + 2048 + 8192 + 16384 + 262144.

(** An instance of [class nonblocking]: [self.fd] and the attribute
    [self.orig_fl], absent until [__enter__] has run. *)
Record nb_obj := mk_nb { nb_fd : Z; nb_orig_fl : option Z }.

Record store := mk_store {
  fl : gmap Z Z;            (* F_GETFL value of every open descriptor *)
  objs : gmap nat nb_obj    (* live [nonblocking] objects *)
}.

Definition F_GETFL (s : store) (fd : Z) : result Z :=
  match fl s !! fd with
  | Some f => Ok f
  | None => Err (OSError EBADF)
  end.

Definition F_SETFL (s : store) (fd v : Z) : result store :=
  match fl s !! fd with
  | Some f =>
      Ok (mk_store (<[fd := Z.lor (Z.land f (Z.lnot setfl_mask))
                                  (Z.land v setfl_mask)]> (fl s)) (objs s))
  | None => Err (OSError EBADF)
  end.

Definition set_obj (s : store) (o : nat) (ob : nb_obj) : store :=
  mk_store (fl s) (<[o := ob]> (objs s)).

(** [nonblocking(fd)]. *)
Definition init (s : store) (o : nat) (fd : Z) : store :=
  set_obj s o (mk_nb fd None).

(** [__enter__]: read the flags, store them in [self.orig_fl], then set
    them with the non-blocking bit added. *)
Definition enter (s : store) (o : nat) : result store :=
  match objs s !! o with
  | None => Err AttributeError
  | Some ob =>
      match F_GETFL s (nb_fd ob) with
      | Err e => Err e
      | Ok orig =>
          let s1 := set_obj s o (mk_nb (nb_fd ob) (Some orig)) in
          F_SETFL s1 (nb_fd ob) (Z.lor orig O_NONBLOCK)
      end
  end.

(** [__exit__]: its arguments (the exception information, if any) are
    ignored and [self.orig_fl] is written back.  [__exit__] returns [None], so an
    exception raised in the scope keeps propagating afterwards; that does
    not touch the store. *)
Definition exit_ (s : store) (o : nat) (exc : option py_exc) : result store :=
  match objs s !! o with
  | None => Err AttributeError
  | Some ob =>
      match nb_orig_fl ob with
      | None => Err AttributeError
      | Some orig => F_SETFL s (nb_fd ob) orig
      end
  end.

(** What can happen to descriptor flags over time: scope objects are
    created, entered and exited, and any code may call [F_SETFL]. *)
Inductive event :=
| New (o : nat) (fd : Z)
| Enter (o : nat)
| Exit (o : nat) (exc : option py_exc)
| SetFl (fd : Z) (v : Z).

Definition step (s : store) (e : event) : result store :=
  match e with
  | New o fd => Ok (init s o fd)
  | Enter o => enter s o
  | Exit o exc => exit_ s o exc
  | SetFl fd v => F_SETFL s fd v
  end.

Fixpoint run (s : store) (es : list event) : result store :=
  match es with
  | [] => Ok s
  | e :: es' =>
      match step s e with
      | Ok s' => run s' es'
      | Err err => Err err
      end
  end.

Definition mentions (o : nat) (e : event) : bool :=
  match e with
  | New o' _ | Enter o' | Exit o' _ => Nat.eqb o o'
  | SetFl _ _ => false
  end.

End NonBlocking.

(** ** cached_property *)
Module Cache.

(** A [cached_property(ttl)] applied to a getter [fget]: the cache key is
    [fget.__name__].  The getter reads the mutable program state [world]
    and the owning instance.  Wall-clock time ([time.time()]) is an integer
    number of seconds here. *)
Record cprop := mk_cprop {
  cp_name : string;
  cp_ttl : Z;
  cp_fget : Z -> nat -> Z
}.

(** The heap: the [_cache] attribute of each instance (a reference to a
    dict object, absent until first set), the dict objects themselves
    ([name -> (value, last_update)]), the program state read by getters,
    the log of getter invocations, and the next free object address. *)
Record cstate := mk_cstate {
  insts : gmap nat nat;
  dicts : gmap nat (gmap string (Z * Z));
  world : Z;
  calls : list (nat * string);
  next_loc : nat
}.

(** [inst._cache[name]] as a lookup through the heap. *)
Definition entry (st : cstate) (i : nat) (name : string) : option (Z * Z) :=
  l ← insts st !! i; d ← dicts st !! l; d !! name.

(** The [except (KeyError, AttributeError)] branch of [__get__]: call the
    getter, fetch [inst._cache] or create it as a fresh dict, and store
    [(value, now)] under the property's name. *)
Definition recompute (p : cprop) (i : nat) (now : Z) (st : cstate) : Z * cstate :=
  let value := cp_fget p (world st) i in
  let calls' := calls st ++ [(i, cp_name p)] in
  let '(l, insts', dicts', next') :=
    match insts st !! i with
    | Some l => (l, insts st, dicts st, next_loc st)
    | None => (next_loc st, <[i := next_loc st]> (insts st),
               <[next_loc st := ∅]> (dicts st), S (next_loc st))
    end in
  let d := default ∅ (dicts' !! l) in
  (value, mk_cstate insts' (<[l := <[cp_name p := (value, now)]> d]> dicts')
                    (world st) calls' next').

(** [cached_property.__get__(self, inst, owner)] at wall-clock time [now]. *)
Definition get (p : cprop) (i : nat) (now : Z) (st : cstate) : Z * cstate :=
  match entry st i (cp_name p) with
  | None => recompute p i now st                       (* AttributeError / KeyError *)
  | Some (value, last_update) =>
      if (0 <? cp_ttl p) && (cp_ttl p <? now - last_update)
      then recompute p i now st                        (* raise AttributeError *)
      else (value, st)
  end.

(** [del instance._cache[name]]. *)
Definition invalidate (i : nat) (name : string) (st : cstate) : result cstate :=
  match insts st !! i with
  | None => Err AttributeError
  | Some l =>
      match dicts st !! l with
      | Some d =>
          match d !! name with
          | Some _ => Ok (mk_cstate (insts st) (<[l := delete name d]> (dicts st))
                                    (world st) (calls st) (next_loc st))
          | None => Err KeyError
          end
      | None => Err KeyError
      end
  end.

Inductive op :=
| Access (p : cprop) (i : nat) (now : Z)
| Mutate (w : Z)
| Invalidate (i : nat) (name : string).

(** Running a sequence of operations, collecting the value returned by
    every access together with the instance and key it was made on. *)
Fixpoint run (st : cstate) (ops : list op) : result (cstate * list (nat * string * Z)) :=
  match ops with
  | [] => Ok (st, [])
  | Access p i now :: ops' =>
      let '(v, st1) := get p i now st in
      match run st1 ops' with
      | Ok (st2, obs) => Ok (st2, (i, cp_name p, v) :: obs)
      | Err e => Err e
      end
  | Mutate w :: ops' =>
      run (mk_cstate (insts st) (dicts st) w (calls st) (next_loc st)) ops'
  | Invalidate i name :: ops' =>
      match invalidate i name st with
      | Ok st1 => run st1 ops'
      | Err e => Err e
      end
  end.

(** A program start: no instance has a [_cache] attribute yet. *)
Definition init (w : Z) : cstate := mk_cstate ∅ ∅ w [] 0.

Definition count_calls (k : nat * string) (cs : list (nat * string)) : nat :=
  length (filter (fun k' => k' = k) cs).

(** An operation that leaves the key [(i, cp_name p)] to the property [p]:
    accesses on that key go through [p] itself, and it is not invalidated. *)
Definition keeps_key (p : cprop) (i : nat) (o : op) : Prop :=
  match o with
  | Access q j _ => (j, cp_name q) = (i, cp_name p) -> q = p
  | Mutate _ => True
  | Invalidate j n => (j, n) <> (i, cp_name p)
  end.

(** An operation acting on instance [j] only (or on the program state). *)
Definition on_instance (j : nat) (o : op) : Prop :=
  match o with
  | Access _ j' _ => j' = j
  | Mutate _ => True
  | Invalidate j' _ => j' = j
  end.

End Cache.

(** ** pty_make_controlling_tty *)
Module PtyControl.

Definition O_WRONLY : Z := 1.
Definition O_RDWR : Z := 2.
Definition O_NOCTTY : Z := 256.
Definition EPERM : Z := 1.

Inductive syscall :=
| SysTtyname (fd : Z)
| SysOpen (path : string) (flags : Z)
| SysClose (fd : Z)
| SysSetsid.

(** The calling process as the kernel sees it.  [setsid_keeps_ctty] is the
    test double of the spec's scenario in which detaching does not take
    effect: when set, [setsid] leaves the controlling terminal in place. *)
Record os := mk_os {
  ctty : option string;          (* controlling terminal *)
  pgrp_leader : bool;            (* process group leader: setsid fails *)
  ttynames : gmap Z string;      (* terminal descriptors and their device paths *)
  devices : list string;         (* device paths that can be opened *)
  tty_devices : list string;     (* those that are terminals *)
  open_fds : gmap Z string;
  next_fd : Z;
  setsid_keeps_ctty : bool;
  trace : list syscall
}.

(** The small state-and-exception monad the Python function runs in. *)
Definition M (A : Type) : Type := os -> result A * os.

Definition ret {A} (a : A) : M A := fun s => (Ok a, s).
Definition raise {A} (e : py_exc) : M A := fun s => (Err e, s).
Definition bind {A B} (m : M A) (k : A -> M B) : M B :=
  fun s => match m s with
           | (Ok a, s') => k a s'
           | (Err e, s') => (Err e, s')
           end.
(** [try: m except: h] with a bare [except]: every exception is caught. *)
Definition try_except {A} (m : M A) (h : py_exc -> M A) : M A :=
  fun s => match m s with
           | (Err e, s') => h e s'
           | r => r
           end.

Notation "x <- m ;; k" := (bind m (fun x => k)) (at level 100, m at next level, right associativity).
Notation "m ;;; k" := (bind m (fun _ => k)) (at level 100, right associativity).

Definition log (c : syscall) (s : os) : os :=
  mk_os (ctty s) (pgrp_leader s) (ttynames s) (devices s) (tty_devices s)
        (open_fds s) (next_fd s) (setsid_keeps_ctty s) (trace s ++ [c]).

Definition os_ttyname (fd : Z) : M string := fun s =>
  let s := log (SysTtyname fd) s in
  match ttynames s !! fd with
  | Some name => (Ok name, s)
  | None => (Err (OSError ENOTTY), s)
  end.

Definition alloc_fd (path : string) (ctty' : option string) (s : os) : Z * os :=
  (next_fd s,
   mk_os ctty' (pgrp_leader s) (ttynames s) (devices s) (tty_devices s)
         (<[next_fd s := path]> (open_fds s)) (next_fd s + 1)
         (setsid_keeps_ctty s) (trace s)).

(** [os.open(path, flags)].  ["/dev/tty"] names the controlling terminal
    and fails with ENXIO without one.  Opening a terminal without
    [O_NOCTTY] makes it the controlling terminal of a session leader that
    has none. *)
Definition os_open (path : string) (flags : Z) : M Z := fun s =>
  let s := log (SysOpen path flags) s in
  if String.eqb path "/dev/tty" then
    match ctty s with
    | Some t => let '(fd, s') := alloc_fd path (Some t) s in (Ok fd, s')
    | None => (Err (OSError ENXIO), s)
    end
  else if existsb (String.eqb path) (devices s) then
    let acquire := existsb (String.eqb path) (tty_devices s) &&
                   negb (Z.testbit flags 8) && negb (pgrp_leader s) &&
                   match ctty s with None => true | Some _ => false end in
    let '(fd, s') := alloc_fd path (if acquire then Some path else ctty s) s in
    (Ok fd, s')
  else (Err (OSError ENOENT), s).

Definition os_close (fd : Z) : M unit := fun s =>
  let s := log (SysClose fd) s in
  match open_fds s !! fd with
  | Some _ =>
      (Ok tt, mk_os (ctty s) (pgrp_leader s) (ttynames s) (devices s) (tty_devices s)
                    (delete fd (open_fds s)) (next_fd s) (setsid_keeps_ctty s) (trace s))
  | None => (Err (OSError EBADF), s)
  end.

(** [os.setsid()]: the caller becomes the leader of a new session without
    a controlling terminal (unless the test double keeps it); a process
    group leader gets EPERM.  Session leaders are group leaders of their
    new group, but the flag [pgrp_leader] only gates [setsid]. *)
Definition os_setsid : M unit := fun s =>
  let s := log SysSetsid s in
  if pgrp_leader s then (Err (OSError EPERM), s)
  else (Ok tt, mk_os (if setsid_keeps_ctty s then ctty s else None) false
                     (ttynames s) (devices s) (tty_devices s) (open_fds s)
                     (next_fd s) (setsid_keeps_ctty s) (trace s)).

Definition when_nonneg (fd : Z) (m : M unit) (otherwise : M unit) : M unit :=
  if 0 <=? fd then m else otherwise.

Definition detach_msg : string :=
  "Failed to disconnect from controlling tty. It is still possible to open /dev/tty.".

(** [pty_make_controlling_tty(tty_fd)], statement by statement. *)
Definition pty_make_controlling_tty (tty_fd : Z) : M unit :=
  child_name <- os_ttyname tty_fd ;;
  (* Disconnect from controlling tty. Harmless if not already connected. *)
  try_except
    (fd <- os_open "/dev/tty" (Z.lor O_RDWR O_NOCTTY) ;;
     when_nonneg fd (os_close fd) (ret tt))
    (fun _ => ret tt) ;;;
  os_setsid ;;;
  (* Verify we are disconnected from controlling tty by opening it again. *)
  try_except
    (fd <- os_open "/dev/tty" (Z.lor O_RDWR O_NOCTTY) ;;
     when_nonneg fd (os_close fd ;;; raise (Exception_ detach_msg)) (ret tt))
    (fun _ => ret tt) ;;;
  (* Verify we can open child pty. *)
  fd <- os_open child_name O_RDWR ;;
  when_nonneg fd (os_close fd)
    (raise (Exception_ ("Could not open child pty, " ++ child_name))) ;;;
  (* Verify we now have a controlling tty. *)
  fd <- os_open "/dev/tty" O_WRONLY ;;
  when_nonneg fd (os_close fd)
    (raise (Exception_ "Could not open controlling tty, /dev/tty")).

End PtyControl.

(** ** get_default_shell *)
Module DefaultShell.

(** An entry of the password database, as [pwd.struct_passwd]. *)
Record passwd := mk_pw { pw_name : string; pw_uid : Z; pw_shell : string }.

(** [pwd.getpwnam(name)] and [pwd.getpwuid(uid)]: the first matching line
    of the database; [KeyError] when there is none. *)
Definition getpwnam (db : list passwd) (name : string) : result passwd :=
  match List.find (fun e => String.eqb (pw_name e) name) db with
  | Some e => Ok e
  | None => Err KeyError
  end.

Definition getpwuid (db : list passwd) (uid : Z) : result passwd :=
  match List.find (fun e => pw_uid e =? uid) db with
  | Some e => Ok e
  | None => Err KeyError
  end.

Definition getuser_vars : list string := ["LOGNAME"; "USER"; "LNAME"; "USERNAME"].

(** The loop of [getpass.getuser]: [user = os.environ.get(name)];
    [if user: return user] (an empty value is false and skipped). *)
Fixpoint first_env (environ : gmap string string) (names : list string) : option string :=
  match names with
  | [] => None
  | name :: rest =>
      match environ !! name with
      | Some user => if String.eqb user "" then first_env environ rest else Some user
      | None => first_env environ rest
      end
  end.

(** [getpass.getuser()]: the environment first, then
    [pwd.getpwuid(os.getuid())[0]]. *)
Definition getuser (environ : gmap string string) (uid : Z) (db : list passwd) : result string :=
  match first_env environ getuser_vars with
  | Some user => Ok user
  | None =>
      match getpwuid db uid with
      | Ok e => Ok (pw_name e)
      | Err err => Err err
      end
  end.

(** [get_default_shell()]. *)
Definition get_default_shell (environ : gmap string string) (uid : Z) (db : list passwd)
  : result string :=
  match getuser environ uid db with
  | Err err => Err err
  | Ok username =>
      match getpwnam db username with
      | Ok e => Ok (pw_shell e)
      | Err err => Err err
      end
  end.

End DefaultShell.

(** ** daemonize *)
Module Daemon.

(** A Python file object: [open(path, mode, buffering)]. *)
Record stream := mk_stream { s_path : string; s_mode : string; s_buffering : Z }.

(** Program points of [daemonize], plus how a process left it. *)
Inductive point :=
| AtFork1                  (* pid = os.fork()                       *)
| AtWait (child : Z)       (* os.waitpid(pid, 0)                    *)
| AtChdir                  (* os.chdir("/")                         *)
| AtUmask                  (* os.umask(0)                           *)
| AtSetsid                 (* os.setsid()                           *)
| AtFork2                  (* pid = os.fork()                       *)
| AtOpenStdin              (* si = open(stdin, 'rb')                *)
| AtOpenStdout             (* so = open(stdout, 'ab+')              *)
| AtOpenStderr             (* se = open(stderr, 'ab+', 0)           *)
| AtDup0 | AtDup1 | AtDup2 (* os.dup2(x.fileno(), sys.std*.fileno()) *)
| Returned (r : Z)         (* return 0 / return 1                   *)
| Exited (status : Z)      (* sys.exit(status)                      *)
| Raised (e : py_exc).     (* an exception escaped                   *)

Record proc := mk_proc {
  pid : Z; ppid : Z; sid : Z;
  cwd : string; umask : Z;
  ctty : option string;               (* controlling terminal *)
  fd0 : stream; fd1 : stream; fd2 : stream;
  si : option stream; so : option stream; se : option stream;  (* locals *)
  pc : point
}.

Inductive msg := ForkFailedMsg (stage : Z) (errno : Z).  (* "fork #%d failed: (%d) %s" *)

Inductive event :=
| EvFork (stage : Z) (parent child : Z)
| EvStderr (who : Z) (target : stream) (m : msg)
| EvExit (who : Z) (status : Z)
| EvWaited (who child : Z)
| EvChdir (who : Z)
| EvUmask (who : Z)
| EvSetsid (who : Z)
| EvReturn (who : Z) (r : Z).

Record sys := mk_sys { procs : gmap Z proc; events : list event }.

(** The answer of the OS to the statement a process executes. *)
Inductive outcome := OsOk (newpid : Z) | OsFail (errno : Z).

Record args := mk_args { stdin : string; stdout : string; stderr : string }.
Definition default_args : args := mk_args "/dev/null" "/dev/null" "/dev/null".

Definition with_pc (p : proc) (x : point) : proc :=
  mk_proc (pid p) (ppid p) (sid p) (cwd p) (umask p) (ctty p)
          (fd0 p) (fd1 p) (fd2 p) (si p) (so p) (se p) x.

(** The child of [os.fork()]: a copy of the caller with a new pid. *)
Definition forked (p : proc) (n : Z) (x : point) : proc :=
  mk_proc n (pid p) (sid p) (cwd p) (umask p) (ctty p)
          (fd0 p) (fd1 p) (fd2 p) (si p) (so p) (se p) x.

Definition is_exited (x : point) : bool :=
  match x with Exited _ => true | _ => false end.

Definition upd (st : sys) (p : proc) (evs : list event) : sys :=
  mk_sys (<[pid p := p]> (procs st)) (events st ++ evs).

(** One statement of [daemonize] executed by process [k]. *)
Definition step_fn (a : args) (st : sys) (k : Z) (out : outcome) : option sys :=
  match procs st !! k with
  | None => None
  | Some p =>
    match pc p, out with
    (* first fork: parent waits, child goes on; failure is fatal *)
    | AtFork1, OsOk n =>
        match procs st !! n with
        | None => if 0 <? n then
                    Some (mk_sys (<[n := forked p n AtChdir]> (<[k := with_pc p (AtWait n)]> (procs st)))
                                 (events st ++ [EvFork 1 k n]))
                  else None
        | Some _ => None
        end
    | AtFork1, OsFail e =>
        Some (upd st (with_pc p (Exited 1))
                  [EvStderr k (fd2 p) (ForkFailedMsg 1 e); EvExit k 1])
    | AtWait c, OsOk _ =>
        match procs st !! c with
        | Some q => if is_exited (pc q)
                    then Some (upd st (with_pc p (Returned 0)) [EvWaited k c; EvReturn k 0])
                    else None                                   (* blocked *)
        | None => None
        end
    (* decouple from parent environment *)
    | AtChdir, OsOk _ =>
        Some (upd st (mk_proc (pid p) (ppid p) (sid p) "/" (umask p) (ctty p)
                              (fd0 p) (fd1 p) (fd2 p) (si p) (so p) (se p) AtUmask)
                  [EvChdir k])
    | AtUmask, OsOk _ =>
        Some (upd st (mk_proc (pid p) (ppid p) (sid p) (cwd p) 0 (ctty p)
                              (fd0 p) (fd1 p) (fd2 p) (si p) (so p) (se p) AtSetsid)
                  [EvUmask k])
    | AtSetsid, OsOk _ =>
        Some (upd st (mk_proc (pid p) (ppid p) (pid p) (cwd p) (umask p) None
                              (fd0 p) (fd1 p) (fd2 p) (si p) (so p) (se p) AtFork2)
                  [EvSetsid k])
    (* second fork: parent exits, child goes on; failure is fatal *)
    | AtFork2, OsOk n =>
        match procs st !! n with
        | None => if 0 <? n then
                    Some (mk_sys (<[n := forked p n AtOpenStdin]> (<[k := with_pc p (Exited 0)]> (procs st)))
                                 (events st ++ [EvFork 2 k n; EvExit k 0]))
                  else None
        | Some _ => None
        end
    | AtFork2, OsFail e =>
        Some (upd st (with_pc p (Exited 1))
                  [EvStderr k (fd2 p) (ForkFailedMsg 2 e); EvExit k 1])
    (* redirect standard file descriptors *)
    | AtOpenStdin, OsOk _ =>
        Some (upd st (mk_proc (pid p) (ppid p) (sid p) (cwd p) (umask p) (ctty p)
                              (fd0 p) (fd1 p) (fd2 p) (Some (mk_stream (stdin a) "rb" (-1)))
                              (so p) (se p) AtOpenStdout) [])
    | AtOpenStdout, OsOk _ =>
        Some (upd st (mk_proc (pid p) (ppid p) (sid p) (cwd p) (umask p) (ctty p)
                              (fd0 p) (fd1 p) (fd2 p) (si p)
                              (Some (mk_stream (stdout a) "ab+" (-1))) (se p) AtOpenStderr) [])
    | AtOpenStderr, OsOk _ =>
        Some (upd st (mk_proc (pid p) (ppid p) (sid p) (cwd p) (umask p) (ctty p)
                              (fd0 p) (fd1 p) (fd2 p) (si p) (so p)
                              (Some (mk_stream (stderr a) "ab+" 0)) AtDup0) [])
    | (AtOpenStdin | AtOpenStdout | AtOpenStderr), OsFail e =>
        Some (upd st (with_pc p (Raised (OSError e))) [])
    | AtDup0, OsOk _ =>
        match si p with
        | Some f => Some (upd st (mk_proc (pid p) (ppid p) (sid p) (cwd p) (umask p) (ctty p)
                                          f (fd1 p) (fd2 p) (si p) (so p) (se p) AtDup1) [])
        | None => None
        end
    | AtDup1, OsOk _ =>
        match so p with
        | Some f => Some (upd st (mk_proc (pid p) (ppid p) (sid p) (cwd p) (umask p) (ctty p)
                                          (fd0 p) f (fd2 p) (si p) (so p) (se p) AtDup2) [])
        | None => None
        end
    | AtDup2, OsOk _ =>
        match se p with
        | Some f => Some (upd st (mk_proc (pid p) (ppid p) (sid p) (cwd p) (umask p) (ctty p)
                                          (fd0 p) (fd1 p) f (si p) (so p) (se p) (Returned 1))
                              [EvReturn k 1])
        | None => None
        end
    | _, _ => None
    end
  end.

Definition step (a : args) (st st' : sys) : Prop :=
  exists k out, step_fn a st k out = Some st'.

(** The caller of [daemonize], about to execute its first statement. *)
Definition start (p0 : proc) : sys :=
  mk_sys {[pid p0 := mk_proc (pid p0) (ppid p0) (sid p0) (cwd p0) (umask p0) (ctty p0)
                             (fd0 p0) (fd1 p0) (fd2 p0) None None None AtFork1]} [].

Definition reachable (a : args) (p0 : proc) (st : sys) : Prop :=
  rtc (step a) (start p0) st.

(** Running an explicit schedule of (process, OS answer) pairs. *)
Fixpoint run_sched (a : args) (st : sys) (sched : list (Z * outcome)) : option sys :=
  match sched with
  | [] => Some st
  | (k, out) :: rest =>
      match step_fn a st k out with
      | Some st' => run_sched a st' rest
      | None => None
      end
  end.


(** ** Concrete runs of [daemonize]

    An interactive process (pid 100, controlling terminal /dev/pts/0, its
    standard streams on that terminal) calls [daemonize()] with the
    default arguments; the runs differ in the answers of the OS. *)
Definition demo_in : stream := mk_stream "/dev/pts/0" "r" (-1).
Definition demo_out : stream := mk_stream "/dev/pts/0" "w" (-1).
Definition demo_err : stream := mk_stream "/dev/pts/0" "w" (-1).

Definition demo_p0 : proc :=
  mk_proc 100 1 1 "/home/user" 18 (Some "/dev/pts/0") demo_in demo_out demo_err
          None None None AtFork1.

Definition run_from (a : args) (p0 : proc) (sched : list (Z * outcome)) : sys :=
  match run_sched a (start p0) sched with Some st => st | None => start p0 end.

(** Both forks succeed (children 101 and 102), the parent's [waitpid]
    returns after 101 exited, and 102 runs to its [return 1]. *)
Definition sched_ok : list (Z * outcome) :=
  [(100, OsOk 101); (101, OsOk 0); (101, OsOk 0); (101, OsOk 0); (101, OsOk 102);
   (100, OsOk 0); (102, OsOk 0); (102, OsOk 0); (102, OsOk 0); (102, OsOk 0);
   (102, OsOk 0); (102, OsOk 0)].

(** The first fork fails with EAGAIN. *)
Definition sched_fork1_fails : list (Z * outcome) := [(100, OsFail EAGAIN)].

(** The first fork succeeds, the second one fails with EAGAIN. *)
Definition sched_fork2_fails : list (Z * outcome) :=
  [(100, OsOk 101); (101, OsOk 0); (101, OsOk 0); (101, OsOk 0); (101, OsFail EAGAIN)].

Definition demo_ok : sys := run_from default_args demo_p0 sched_ok.
Definition demo_fail1 : sys := run_from default_args demo_p0 sched_fork1_fails.
Definition demo_fail2 : sys := run_from default_args demo_p0 sched_fork2_fails.

End Daemon.

(* ================================================================== *)
(** * Proofs *)

Module WinsizeFacts.
Import Winsize.

Lemma fits_short_iff (x : Z) : fits_short x = true <-> short_min <= x <= short_max.
Proof. unfold fits_short. rewrite andb_true_iff, !Z.leb_le. tauto. Qed.

Lemma array_h_in_range (rows cols : Z) :
  short_min <= rows <= short_max -> short_min <= cols <= short_max ->
  array_h [rows; cols; 0; 0] = Ok [rows; cols; 0; 0].
Proof.
  intros Hr Hc. unfold array_h. simpl.
  apply fits_short_iff in Hr, Hc. rewrite Hr, Hc. reflexivity.
Qed.

Example set_terminal_size_24_80 :
  set_terminal_size (mk_kernel {[3 := PtyEndpoint]} ∅ []) 3 24 80
  = (Ok tt, mk_kernel {[3 := PtyEndpoint]} {[3 := mk_winsize 24 80 0 0]}
                      [(3, [24; 80; 0; 0])]).
Proof. reflexivity. Qed.

(** Claim C9 as stated: the call transmits [rows; cols; 0; 0], accepts
    zero sizes, and fails with an [OSError] whenever the descriptor is
    not an open pty endpoint. *)
Definition C9_as_stated : Prop :=
  forall (k : kernel) (fd rows cols : Z),
    k_fds k !! fd <> Some PtyEndpoint ->
    exists errno, fst (set_terminal_size k fd rows cols) = Err (OSError errno).

(** C9 (counterexample): a descriptor on a terminal that is not a pty
    endpoint (e.g. a serial line or virtual console) is not an open pty
    endpoint, yet [set_terminal_size] on it succeeds: the kernel accepts
    [TIOCSWINSZ] on every tty. *)
Lemma set_terminal_size_non_pty_tty_succeeds : ~ C9_as_stated.
Proof.
  intros H.
  destruct (H (mk_kernel {[3 := OtherTty]} ∅ []) 3 24 80) as [e He].
  - simpl. rewrite lookup_singleton_eq. discriminate.
  - simpl in He. discriminate.
Qed.

(** C9 (amended): for row and column counts that fit the signed 16-bit
    buffer, [set_terminal_size] transmits exactly the four fields
    [rows; cols; 0; 0] (pixel fields 0) without validating them, so
    zero sizes pass through; it fails with [OSError] (EBADF) on a closed
    descriptor and (ENOTTY) on a descriptor that is not a terminal,
    leaving the kernel unchanged; on any open terminal it succeeds. *)
Theorem set_terminal_size_transmits_and_fails_on_closed
  (k : kernel) (fd rows cols : Z) :
  short_min <= rows <= short_max -> short_min <= cols <= short_max ->
  (forall kind, k_fds k !! fd = Some kind -> kind <> NonTty ->
     set_terminal_size k fd rows cols =
       (Ok tt, mk_kernel (k_fds k)
                 (<[fd := mk_winsize (u16 rows) (u16 cols) 0 0]> (k_winsz k))
                 (k_requests k ++ [(fd, [rows; cols; 0; 0])]))) /\
  (k_fds k !! fd = Some NonTty ->
     set_terminal_size k fd rows cols = (Err (OSError ENOTTY), k)) /\
  (k_fds k !! fd = None ->
     set_terminal_size k fd rows cols = (Err (OSError EBADF), k)) /\
  set_terminal_size (close k fd) fd rows cols = (Err (OSError EBADF), close k fd).
Proof.
  intros Hr Hc.
  unfold set_terminal_size. rewrite (array_h_in_range rows cols Hr Hc).
  unfold ioctl_TIOCSWINSZ. repeat split.
  - intros kind Hk Hnt. rewrite Hk. destruct kind; [reflexivity | reflexivity | congruence].
  - intros Hk. rewrite Hk. reflexivity.
  - intros Hk. rewrite Hk. reflexivity.
  - simpl. rewrite lookup_delete_eq. reflexivity.
Qed.

Lemma set_terminal_size_transmits_and_fails_on_closed_witness :
  (short_min <= 0 <= short_max /\ short_min <= 0 <= short_max) /\
  set_terminal_size (mk_kernel {[5 := PtyEndpoint]} ∅ []) 5 0 0 =
    (Ok tt, mk_kernel {[5 := PtyEndpoint]} {[5 := mk_winsize 0 0 0 0]}
                      [(5, [0; 0; 0; 0])]).
Proof.
  split; [unfold short_min, short_max; lia |].
  destruct (set_terminal_size_transmits_and_fails_on_closed
              (mk_kernel {[5 := PtyEndpoint]} ∅ []) 5 0 0)
    as [H1 _]; [unfold short_min, short_max; lia .. |].
  rewrite (H1 PtyEndpoint); [reflexivity | reflexivity | discriminate].
Defined.

(** C10: a row or column count outside the signed 16-bit range makes the
    buffer construction raise [OverflowError]; the kernel state, and in
    particular its log of window-size requests, is left unchanged. *)
Theorem set_terminal_size_overflow_before_ioctl (k : kernel) (fd rows cols : Z) :
  ~ (short_min <= rows <= short_max /\ short_min <= cols <= short_max) ->
  set_terminal_size k fd rows cols = (Err OverflowError, k).
Proof.
  intros Hout. unfold set_terminal_size, array_h. simpl.
  destruct (fits_short rows) eqn:Er, (fits_short cols) eqn:Ec; try reflexivity.
  exfalso. apply Hout. rewrite <- !fits_short_iff. auto.
Qed.

Lemma set_terminal_size_overflow_before_ioctl_witness :
  ~ (short_min <= 40000 <= short_max /\ short_min <= 80 <= short_max) /\
  set_terminal_size (mk_kernel {[3 := PtyEndpoint]} ∅ []) 3 40000 80 =
    (Err OverflowError, mk_kernel {[3 := PtyEndpoint]} ∅ []).
Proof.
  assert (H : ~ (short_min <= 40000 <= short_max /\ short_min <= 80 <= short_max))
    by (unfold short_min, short_max; lia).
  split; [exact H | apply (set_terminal_size_overflow_before_ioctl _ 3 40000 80 H)].
Defined.

End WinsizeFacts.

Module NonBlockingFacts.
Import NonBlocking.

(** The bits of a descriptor's flags that [F_SETFL] cannot change. *)
Definition fixed_bits (s : store) (fd : Z) : option Z :=
  (fun f => Z.land f (Z.lnot setfl_mask)) <$> fl s !! fd.

Lemma F_SETFL_fixed_bits (s s' : store) (fd v : Z) :
  F_SETFL s fd v = Ok s' -> forall fd', fixed_bits s' fd' = fixed_bits s fd'.
Proof.
  unfold F_SETFL, fixed_bits. destruct (fl s !! fd) as [f|] eqn:Hf; [|discriminate].
  intros Heq fd'. injection Heq as <-. simpl.
  destruct (decide (fd = fd')) as [<-|Hne].
  - rewrite lookup_insert_eq, Hf. simpl. f_equal.
    apply Z.bits_inj'. intros n Hn.
    rewrite ?Z.land_spec, ?Z.lor_spec, ?Z.land_spec, ?Z.lnot_spec by exact Hn.
    destruct (Z.testbit f n), (Z.testbit v n), (Z.testbit setfl_mask n); reflexivity.
  - rewrite lookup_insert_ne by exact Hne. reflexivity.
Qed.

Lemma step_fixed_bits (s s' : store) (e : event) :
  step s e = Ok s' -> forall fd, fixed_bits s' fd = fixed_bits s fd.
Proof.
  destruct e as [o fd0 | o | o exc | fd0 v]; simpl.
  - intros [= <-] fd. reflexivity.
  - unfold enter. destruct (objs s !! o) as [ob|]; [|discriminate].
    destruct (F_GETFL s (nb_fd ob)) as [orig|]; [|discriminate].
    intros H fd. rewrite (F_SETFL_fixed_bits _ _ _ _ H). reflexivity.
  - unfold exit_. destruct (objs s !! o) as [ob|]; [|discriminate].
    destruct (nb_orig_fl ob) as [orig|]; [|discriminate].
    intros H fd. exact (F_SETFL_fixed_bits _ _ _ _ H fd).
  - intros H fd. exact (F_SETFL_fixed_bits _ _ _ _ H fd).
Qed.

Lemma F_SETFL_objs (s s' : store) (fd v : Z) :
  F_SETFL s fd v = Ok s' -> objs s' = objs s.
Proof.
  unfold F_SETFL. destruct (fl s !! fd); [|discriminate]. intros [= <-]. reflexivity.
Qed.

Lemma step_objs_other (s s' : store) (o : nat) (e : event) :
  mentions o e = false -> step s e = Ok s' -> objs s' !! o = objs s !! o.
Proof.
  destruct e as [o' fd0 | o' | o' exc | fd0 v]; simpl; intros Hm.
  - apply Nat.eqb_neq in Hm. intros [= <-]. simpl.
    rewrite lookup_insert_ne by congruence. reflexivity.
  - apply Nat.eqb_neq in Hm. unfold enter.
    destruct (objs s !! o') as [ob|]; [|discriminate].
    destruct (F_GETFL s (nb_fd ob)) as [orig|]; [|discriminate].
    intros H. rewrite (F_SETFL_objs _ _ _ _ H). simpl.
    rewrite lookup_insert_ne by congruence. reflexivity.
  - unfold exit_. destruct (objs s !! o') as [ob|]; [|discriminate].
    destruct (nb_orig_fl ob) as [orig|]; [|discriminate].
    intros H. rewrite (F_SETFL_objs _ _ _ _ H). reflexivity.
  - intros H. rewrite (F_SETFL_objs _ _ _ _ H). reflexivity.
Qed.

Lemma run_app (s s' : store) (es1 es2 : list event) :
  run s (es1 ++ es2) = Ok s' ->
  exists s1, run s es1 = Ok s1 /\ run s1 es2 = Ok s'.
Proof.
  revert s. induction es1 as [|e es1 IH]; simpl; intros s H.
  - exists s. auto.
  - destruct (step s e) as [s0|]; [|discriminate]. exact (IH s0 H).
Qed.

Lemma run_frame (s s' : store) (o : nat) (es : list event) :
  Forall (fun e => mentions o e = false) es -> run s es = Ok s' ->
  objs s' !! o = objs s !! o /\ (forall fd, fixed_bits s' fd = fixed_bits s fd).
Proof.
  revert s. induction es as [|e es IH]; simpl; intros s Hall H.
  - injection H as <-. auto.
  - inversion Hall as [|? ? He Hes]; subst.
    destruct (step s e) as [s0|] eqn:Hs; [|discriminate].
    destruct (IH s0 Hes H) as [Ho Hb]. split.
    + rewrite Ho. exact (step_objs_other _ _ _ _ He Hs).
    + intros fd. rewrite Hb. exact (step_fixed_bits _ _ _ Hs fd).
Qed.

Lemma restore_bits (f g : Z) :
  Z.land f (Z.lnot setfl_mask) = Z.land g (Z.lnot setfl_mask) ->
  Z.lor (Z.land f (Z.lnot setfl_mask)) (Z.land g setfl_mask) = g.
Proof.
  intros H. rewrite H. apply Z.bits_inj'. intros n Hn.
  rewrite ?Z.lor_spec, ?Z.land_spec, ?Z.lnot_spec by exact Hn.
  destruct (Z.testbit g n), (Z.testbit setfl_mask n); reflexivity.
Qed.

Example nonblocking_sets_then_restores :
  run (mk_store {[4 := 2]} ∅) [New 0 4; Enter 0] = Ok (mk_store {[4 := 2 + 2048]} {[0%nat := mk_nb 4 (Some 2)]})
  /\ run (mk_store {[4 := 2]} ∅) [New 0 4; Enter 0; Exit 0 None] = Ok (mk_store {[4 := 2]} {[0%nat := mk_nb 4 (Some 2)]}).
Proof. split; vm_compute; reflexivity. Qed.

(** C5: for any descriptor, a [nonblocking] scope that is entered and
    later exited (normally or because an exception was raised inside it),
    with any other events in between (other scopes on the same or other
    descriptors, arbitrary [F_SETFL] calls) that do not re-enter or replace
    this scope object, leaves the descriptor flags exactly equal to the
    flags observed immediately before its [__enter__]. *)
Theorem nonblocking_restores_original_flags
  (s s' : store) (o : nat) (fd f0 : Z) (orig : option Z)
  (mid : list event) (exc : option py_exc) :
  objs s !! o = Some (mk_nb fd orig) ->
  fl s !! fd = Some f0 ->
  Forall (fun e => mentions o e = false) mid ->
  run s (Enter o :: mid ++ [Exit o exc]) = Ok s' ->
  fl s' !! fd = Some f0.
Proof.
  intros Ho Hfd Hmid Hrun. simpl in Hrun.
  destruct (enter s o) as [s1|] eqn:He; [|discriminate].
  pose proof (step_fixed_bits s s1 (Enter o) He) as Hb1.
  assert (Ho1 : objs s1 !! o = Some (mk_nb fd (Some f0))).
  { revert He. unfold enter, F_GETFL. rewrite Ho. simpl. rewrite Hfd. intros H.
    rewrite (F_SETFL_objs _ _ _ _ H). simpl. apply lookup_insert_eq. }
  destruct (run_app s1 s' mid [Exit o exc] Hrun) as [s2 [Hmid2 Hlast]].
  destruct (run_frame s1 s2 o mid Hmid Hmid2) as [Ho2 Hb2].
  simpl in Hlast. destruct (exit_ s2 o exc) as [s3|] eqn:Hx; [|discriminate].
  injection Hlast as <-.
  revert Hx. unfold exit_. rewrite Ho2, Ho1. simpl. unfold F_SETFL.
  specialize (Hb2 fd). rewrite Hb1 in Hb2. unfold fixed_bits in Hb2.
  rewrite Hfd in Hb2. destruct (fl s2 !! fd) as [g|] eqn:Hg; [|discriminate].
  simpl in Hb2. injection Hb2 as Hb2.
  intros [= <-]. simpl. rewrite lookup_insert_eq. f_equal.
  apply restore_bits. exact Hb2.
Qed.

Lemma nonblocking_restores_original_flags_witness :
  Forall (fun e => mentions 0 e = false) [New 1 4; Enter 1; SetFl 4 0; Exit 1 None] /\
  exists s', run (mk_store {[4 := 2]} {[0%nat := mk_nb 4 None]})
                 (Enter 0 :: [New 1 4; Enter 1; SetFl 4 0; Exit 1 None] ++
                  [Exit 0 (Some (OSError EAGAIN))]) = Ok s' /\
             fl s' !! 4 = Some 2.
Proof.
  assert (Hm : Forall (fun e => mentions 0 e = false)
                 [New 1 4; Enter 1; SetFl 4 0; Exit 1 None]) by (repeat constructor).
  split; [exact Hm |].
  eexists. split; [reflexivity |].
  apply (nonblocking_restores_original_flags
           (mk_store {[4 := 2]} {[0%nat := mk_nb 4 None]}) _ 0 4 2 None
           [New 1 4; Enter 1; SetFl 4 0; Exit 1 None] (Some (OSError EAGAIN)));
    [reflexivity | reflexivity | exact Hm | reflexivity].
Defined.

End NonBlockingFacts.

Module CacheFacts.
Import Cache.

(** No two instances share a [_cache] dict, and every dict referenced by
    an instance lies below the allocation pointer. *)
Definition wf (st : cstate) : Prop :=
  (forall i j l, insts st !! i = Some l -> insts st !! j = Some l -> i = j) /\
  (forall i l, insts st !! i = Some l -> (l < next_loc st)%nat).

Lemma wf_init (w : Z) : wf (init w).
Proof. unfold wf, init; simpl. split; intros *; rewrite lookup_empty; discriminate. Qed.

Lemma recompute_wf (p : cprop) (i : nat) (now : Z) (st : cstate) :
  wf st -> wf (snd (recompute p i now st)).
Proof.
  intros [Hinj Hlt]. unfold recompute.
  destruct (insts st !! i) as [li|] eqn:Ei; simpl; [split; assumption |].
  split.
  - intros a b l Ha Hb. cbn [insts next_loc] in Ha, Hb.
    destruct (decide (a = i)) as [->|Hai], (decide (b = i)) as [->|Hbi]; auto.
    + rewrite lookup_insert_eq in Ha. rewrite lookup_insert_ne in Hb by congruence.
      injection Ha as <-. apply Hlt in Hb. lia.
    + rewrite lookup_insert_eq in Hb. rewrite lookup_insert_ne in Ha by congruence.
      injection Hb as <-. apply Hlt in Ha. lia.
    + rewrite lookup_insert_ne in Ha, Hb by congruence. eauto.
  - intros a l Ha. cbn [insts next_loc] in Ha |- *.
    destruct (decide (a = i)) as [->|Hai].
    + rewrite lookup_insert_eq in Ha. injection Ha as <-. lia.
    + rewrite lookup_insert_ne in Ha by congruence. apply Hlt in Ha. lia.
Qed.

Lemma get_wf (p : cprop) (i : nat) (now : Z) (st : cstate) :
  wf st -> wf (snd (get p i now st)).
Proof.
  intros Hwf. unfold get.
  destruct (entry st i (cp_name p)) as [[v t]|]; [|apply recompute_wf; exact Hwf].
  destruct (_ && _); [apply recompute_wf; exact Hwf | exact Hwf].
Qed.

Lemma invalidate_shape (i : nat) (name : string) (st st' : cstate) :
  invalidate i name st = Ok st' ->
  exists l d, insts st !! i = Some l /\ dicts st !! l = Some d /\
    st' = mk_cstate (insts st) (<[l := delete name d]> (dicts st))
                    (world st) (calls st) (next_loc st).
Proof.
  unfold invalidate. destruct (insts st !! i) as [l|] eqn:El; [|discriminate].
  destruct (dicts st !! l) as [d|] eqn:Ed; [|discriminate].
  destruct (d !! name); [|discriminate]. intros [= <-]. eauto.
Qed.

Lemma run_wf (st st' : cstate) (ops : list op) obs :
  wf st -> run st ops = Ok (st', obs) -> wf st'.
Proof.
  revert st obs. induction ops as [|o ops IH]; intros st obs Hwf Hrun; simpl in Hrun.
  - injection Hrun as <- _. exact Hwf.
  - destruct o as [p i now | w | i name].
    + pose proof (get_wf p i now st Hwf) as Hw1.
      destruct (get p i now st) as [v st1].
      destruct (run st1 ops) as [[st2 obs2]|] eqn:Hr; [|discriminate].
      injection Hrun as <- _. exact (IH st1 obs2 Hw1 Hr).
    + refine (IH _ obs _ Hrun). destruct Hwf as [H1 H2]. split; assumption.
    + destruct (invalidate i name st) as [st1|] eqn:Hi; [|discriminate].
      apply (IH st1 obs); [|exact Hrun].
      destruct (invalidate_shape _ _ _ _ Hi) as (l & d & _ & _ & ->).
      destruct Hwf as [H1 H2]. split; assumption.
Qed.

(** What a recomputation stores: the fresh value under the property's
    name, stamped with the access time, and one logged getter call. *)
Lemma recompute_entry (p : cprop) (i : nat) (now : Z) (st : cstate) :
  entry (snd (recompute p i now st)) i (cp_name p) = Some (cp_fget p (world st) i, now) /\
  fst (recompute p i now st) = cp_fget p (world st) i /\
  calls (snd (recompute p i now st)) = calls st ++ [(i, cp_name p)] /\
  world (snd (recompute p i now st)) = world st.
Proof.
  unfold recompute, entry.
  destruct (insts st !! i) as [li|] eqn:Ei; simpl.
  - rewrite Ei. simpl. rewrite lookup_insert_eq. simpl. rewrite lookup_insert_eq. auto.
  - rewrite !lookup_insert_eq. simpl. rewrite lookup_insert_eq. simpl.
    rewrite lookup_insert_eq. auto.
Qed.

(** A recomputation for key [(j, name p)] leaves every other key's entry
    alone, provided no two instances share a dict. *)
Lemma recompute_frame (p : cprop) (j : nat) (now : Z) (st : cstate) (i : nat) (n : string) :
  wf st -> (j, cp_name p) <> (i, n) ->
  entry (snd (recompute p j now st)) i n = entry st i n.
Proof.
  intros [Hinj Hlt] Hne. unfold recompute, entry.
  destruct (insts st !! j) as [lj|] eqn:Ej; simpl.
  - destruct (insts st !! i) as [li|] eqn:Ei; simpl; [|reflexivity].
    destruct (decide (li = lj)) as [->|Hl].
    + assert (i = j) as -> by eauto.
      rewrite lookup_insert_eq. simpl.
      rewrite lookup_insert_ne by congruence.
      destruct (dicts st !! lj); simpl; [reflexivity | apply lookup_empty].
    + rewrite lookup_insert_ne by congruence. reflexivity.
  - destruct (decide (i = j)) as [->|Hij].
    + rewrite Ej, lookup_insert_eq. simpl. rewrite !lookup_insert_eq. simpl.
      rewrite lookup_insert_eq. simpl.
      rewrite lookup_insert_ne by congruence. apply lookup_empty.
    + rewrite (lookup_insert_ne (insts st) j i) by congruence.
      destruct (insts st !! i) as [li|] eqn:Ei; simpl; [|reflexivity].
      pose proof (Hlt i li Ei).
      rewrite !lookup_insert_ne by lia. reflexivity.
Qed.

Lemma count_calls_app_other (k k' : nat * string) (cs : list (nat * string)) :
  k' <> k -> count_calls k (cs ++ [k']) = count_calls k cs.
Proof.
  intros Hne. unfold count_calls. rewrite filter_app, length_app.
  rewrite filter_cons_False by exact Hne. simpl. lia.
Qed.

Lemma count_calls_app_same (k : nat * string) (cs : list (nat * string)) :
  count_calls k (cs ++ [k]) = S (count_calls k cs).
Proof.
  unfold count_calls. rewrite filter_app, length_app.
  rewrite filter_cons_True by reflexivity. simpl. lia.
Qed.

End CacheFacts.

Module CacheTheorems.
Import Cache CacheFacts.

Lemma get_frame (p : cprop) (j : nat) (now : Z) (st : cstate) (i : nat) (n : string) :
  wf st -> (j, cp_name p) <> (i, n) ->
  entry (snd (get p j now st)) i n = entry st i n /\
  count_calls (i, n) (calls (snd (get p j now st))) = count_calls (i, n) (calls st).
Proof.
  intros Hwf Hne.
  assert (Hr : entry (snd (recompute p j now st)) i n = entry st i n /\
               count_calls (i, n) (calls (snd (recompute p j now st))) =
               count_calls (i, n) (calls st)).
  { split; [exact (recompute_frame p j now st i n Hwf Hne) |].
    destruct (recompute_entry p j now st) as (_ & _ & Hc & _). rewrite Hc.
    apply count_calls_app_other. exact Hne. }
  unfold get. destruct (entry st j (cp_name p)) as [[v t]|]; [|exact Hr].
  destruct (_ && _); [exact Hr | auto].
Qed.

Lemma invalidate_frame (j : nat) (m : string) (st st' : cstate) (i : nat) (n : string) :
  wf st -> (j, m) <> (i, n) -> invalidate j m st = Ok st' ->
  entry st' i n = entry st i n /\ calls st' = calls st.
Proof.
  intros [Hinj _] Hne Hinv.
  destruct (invalidate_shape _ _ _ _ Hinv) as (lj & d & Ej & Ed & ->).
  split; [|reflexivity]. unfold entry. simpl.
  destruct (insts st !! i) as [li|] eqn:Ei; simpl; [|reflexivity].
  destruct (decide (li = lj)) as [->|Hl].
  - assert (i = j) as -> by eauto.
    rewrite lookup_insert_eq, Ed. simpl.
    rewrite lookup_delete_ne by congruence. reflexivity.
  - rewrite lookup_insert_ne by congruence. reflexivity.
Qed.

Lemma run_keeps_entry (p : cprop) (i : nat) (v0 t0 : Z) (ops : list op) :
  cp_ttl p = 0 -> Forall (keeps_key p i) ops ->
  forall st st' obs,
  wf st -> entry st i (cp_name p) = Some (v0, t0) ->
  run st ops = Ok (st', obs) ->
  entry st' i (cp_name p) = Some (v0, t0) /\
  count_calls (i, cp_name p) (calls st') = count_calls (i, cp_name p) (calls st) /\
  Forall (fun x => x.1 = (i, cp_name p) -> x.2 = v0) obs.
Proof.
  intros Httl Hall. induction Hall as [|o ops Ho Hall IH];
    intros st st' obs Hwf He Hrun; simpl in Hrun.
  - injection Hrun as <- <-. auto.
  - destruct o as [q j now | w | j m].
    + simpl in Ho.
      destruct (decide ((j, cp_name q) = (i, cp_name p))) as [Heq|Hne].
      * specialize (Ho Heq). subst q. injection Heq as ->.
        unfold get in Hrun. rewrite He, Httl in Hrun. simpl in Hrun.
        destruct (run st ops) as [[st2 obs2]|] eqn:Hr; [|discriminate].
        injection Hrun as <- <-.
        destruct (IH st st2 obs2 Hwf He Hr) as (He2 & Hc2 & Ho2).
        split; [exact He2 | split; [exact Hc2 |]].
        constructor; [intros _; reflexivity | exact Ho2].
      * destruct (get_frame q j now st i (cp_name p) Hwf Hne) as [Hf Hc].
        pose proof (get_wf q j now st Hwf) as Hw1.
        destruct (get q j now st) as [v st1]. simpl in Hf, Hc, Hw1.
        destruct (run st1 ops) as [[st2 obs2]|] eqn:Hr; [|discriminate].
        injection Hrun as <- <-.
        rewrite <- Hf in He.
        destruct (IH st1 st2 obs2 Hw1 He Hr) as (He2 & Hc2 & Ho2).
        split; [exact He2 | split; [congruence |]].
        constructor; [simpl; intros Hk; congruence | exact Ho2].
    + destruct (IH (mk_cstate (insts st) (dicts st) w (calls st) (next_loc st))
                  st' obs) as (He2 & Hc2 & Ho2); [| exact He | exact Hrun |];
        [destruct Hwf as [H1 H2]; split; assumption |].
      simpl in Hc2. auto.
    + destruct (invalidate j m st) as [st1|] eqn:Hi; [|discriminate].
      simpl in Ho. destruct (invalidate_frame j m st st1 i (cp_name p) Hwf Ho Hi) as [Hf Hc].
      assert (Hw1 : wf st1) by (apply (run_wf st st1 [Invalidate j m] []); [exact Hwf | simpl; rewrite Hi; reflexivity]).
      rewrite <- Hf in He.
      destruct (IH st1 st' obs Hw1 He Hrun) as (He2 & Hc2 & Ho2).
      split; [exact He2 | split; [congruence | exact Ho2]].
Qed.

(** A sample property: its getter reads the program state. *)
Definition counter_prop (ttl : Z) : cprop := mk_cprop "counter" ttl (fun w i => w + Z.of_nat i).

Example cached_ttl0_sample :
  match run (init 10) [Access (counter_prop 0) 1 100; Mutate 20;
                       Access (counter_prop 0) 1 5000] with
  | Ok (st, obs) => (obs, calls st)
  | Err _ => ([], [])
  end = ([(1%nat, "counter"%string, 11); (1%nat, "counter"%string, 11)],
         [(1%nat, "counter"%string)]).
Proof. reflexivity. Qed.

(** C6: with [ttl = 0], starting from any reachable heap in which the key
    [(i, name)] holds no entry, the first access calls the getter and every
    later access on that key returns the first-computed value without a
    further call, whatever the access times, program-state mutations and
    other operations in between (as long as they do not [del] that entry). *)
Theorem cached_property_ttl0_computes_once
  (w : Z) (ops0 : list op) (st : cstate) obs0 (p : cprop) (i : nat) (t0 : Z)
  (ops : list op) (st' : cstate) obs :
  run (init w) ops0 = Ok (st, obs0) ->
  cp_ttl p = 0 ->
  entry st i (cp_name p) = None ->
  Forall (keeps_key p i) ops ->
  run st (Access p i t0 :: ops) = Ok (st', obs) ->
  count_calls (i, cp_name p) (calls st') = S (count_calls (i, cp_name p) (calls st)) /\
  Forall (fun x => x.1 = (i, cp_name p) -> x.2 = cp_fget p (world st) i) obs.
Proof.
  intros Hreach Httl Hnone Hall Hrun.
  pose proof (run_wf _ _ _ _ (wf_init w) Hreach) as Hwf.
  simpl in Hrun. unfold get in Hrun. rewrite Hnone in Hrun.
  destruct (recompute_entry p i t0 st) as (He1 & Hv1 & Hc1 & _).
  pose proof (recompute_wf p i t0 st Hwf) as Hw1.
  destruct (recompute p i t0 st) as [v st1]. simpl in He1, Hv1, Hc1, Hw1. subst v.
  destruct (run st1 ops) as [[st2 obs2]|] eqn:Hr; [|discriminate].
  injection Hrun as <- <-.
  destruct (run_keeps_entry p i _ _ ops Httl Hall st1 st2 obs2 Hw1 He1 Hr)
    as (_ & Hc2 & Ho2).
  split.
  - rewrite Hc2, Hc1. apply count_calls_app_same.
  - constructor; [intros _; reflexivity | exact Ho2].
Qed.

Lemma cached_property_ttl0_computes_once_witness :
  exists st' obs,
  run (mk_cstate ∅ ∅ 10 [] 0)
      (Access (counter_prop 0) 1 100 :: [Mutate 20; Access (counter_prop 0) 1 5000])
    = Ok (st', obs) /\
  count_calls (1%nat, "counter"%string) (calls st') = 1%nat /\
  Forall (fun x => x.1 = (1%nat, "counter"%string) -> x.2 = 11) obs.
Proof.
  do 2 eexists. split; [reflexivity |].
  apply (cached_property_ttl0_computes_once 10 [] (init 10) [] (counter_prop 0) 1 100
           [Mutate 20; Access (counter_prop 0) 1 5000]);
    [reflexivity | reflexivity | reflexivity | | reflexivity].
  repeat constructor.
Defined.

(** C7: with [ttl = T > 0] and a stored entry [(v, t)], an access at time
    [now] recomputes, stores [(new value, now)] and logs one getter call
    exactly when [now - t > T]; otherwise it returns [v] and leaves the
    heap, and the call log, unchanged. *)
Theorem cached_property_ttl_expiry (p : cprop) (i : nat) (st : cstate) (v t now : Z) :
  0 < cp_ttl p -> entry st i (cp_name p) = Some (v, t) ->
  (cp_ttl p < now - t ->
     fst (get p i now st) = cp_fget p (world st) i /\
     entry (snd (get p i now st)) i (cp_name p) = Some (cp_fget p (world st) i, now) /\
     calls (snd (get p i now st)) = calls st ++ [(i, cp_name p)]) /\
  (now - t <= cp_ttl p -> get p i now st = (v, st)).
Proof.
  intros Httl He. unfold get. rewrite He.
  assert (Hpos : (0 <? cp_ttl p) = true) by (apply Z.ltb_lt; exact Httl).
  rewrite Hpos. simpl. split.
  - intros Hlt. rewrite (proj2 (Z.ltb_lt _ _) Hlt).
    destruct (recompute_entry p i now st) as (He1 & Hv1 & Hc1 & _). auto.
  - intros Hle. assert (Hf : (cp_ttl p <? now - t) = false) by (apply Z.ltb_ge; exact Hle).
    rewrite Hf. reflexivity.
Qed.

Lemma cached_property_ttl_expiry_witness :
  let st := snd (get (counter_prop 300) 1 1000 (init 7)) in
  (0 < cp_ttl (counter_prop 300) /\ entry st 1 "counter" = Some (8, 1000)) /\
  fst (get (counter_prop 300) 1 1301 st) = 8 /\
  get (counter_prop 300) 1 1300 st = (8, st).
Proof.
  intros st.
  assert (H0 : 0 < cp_ttl (counter_prop 300)) by (simpl; lia).
  assert (He : entry st 1 "counter" = Some (8, 1000)) by reflexivity.
  split; [split; [exact H0 | exact He] |].
  destruct (cached_property_ttl_expiry (counter_prop 300) 1 st 8 1000 1301 H0 He) as [H1 _].
  destruct (cached_property_ttl_expiry (counter_prop 300) 1 st 8 1000 1300 H0 He) as [_ H2].
  split.
  - destruct (H1 ltac:(simpl; lia)) as [Hv _]. exact Hv.
  - apply H2. simpl. lia.
Defined.

(** C8: from any reachable heap (instances whose [_cache] attribute is
    created by [__get__] itself), any sequence of accesses, recomputations
    and invalidations on instance [j] leaves every cache entry of a
    distinct instance [i] unchanged. *)
Theorem cached_property_instances_independent
  (w : Z) (ops0 : list op) (st : cstate) obs0 (i j : nat) (ops : list op)
  (st' : cstate) obs :
  run (init w) ops0 = Ok (st, obs0) ->
  i <> j ->
  Forall (on_instance j) ops ->
  run st ops = Ok (st', obs) ->
  forall n, entry st' i n = entry st i n.
Proof.
  intros Hreach Hij Hall. pose proof (run_wf _ _ _ _ (wf_init w) Hreach) as Hwf.
  clear Hreach. revert st st' obs Hwf.
  induction Hall as [|o ops Ho Hall IH]; intros st st' obs Hwf Hrun n; simpl in Hrun.
  - injection Hrun as <- _. reflexivity.
  - destruct o as [q j' now | w' | j' m]; simpl in Ho.
    + subst j'.
      destruct (get_frame q j now st i n Hwf ltac:(congruence)) as [Hf _].
      pose proof (get_wf q j now st Hwf) as Hw1.
      destruct (get q j now st) as [v st1]. simpl in Hf, Hw1.
      destruct (run st1 ops) as [[st2 obs2]|] eqn:Hr; [|discriminate].
      injection Hrun as <- _. rewrite <- Hf. exact (IH st1 st2 obs2 Hw1 Hr n).
    + refine (IH (mk_cstate (insts st) (dicts st) w' (calls st) (next_loc st))
                 st' obs _ Hrun n).
      destruct Hwf as [H1 H2]. split; assumption.
    + subst j'. destruct (invalidate j m st) as [st1|] eqn:Hi; [|discriminate].
      destruct (invalidate_frame j m st st1 i n Hwf ltac:(congruence) Hi) as [Hf _].
      assert (Hw1 : wf st1) by (apply (run_wf st st1 [Invalidate j m] []);
                                [exact Hwf | simpl; rewrite Hi; reflexivity]).
      rewrite <- Hf. exact (IH st1 st' obs Hw1 Hrun n).
Qed.

Lemma cached_property_instances_independent_witness :
  let st := match run (init 0) [Access (counter_prop 0) 1 0; Access (counter_prop 0) 2 0] with
            | Ok (s, _) => s | Err _ => init 0 end in
  exists st' obs,
  run st [Mutate 5; Invalidate 2 "counter"; Access (counter_prop 0) 2 9] = Ok (st', obs) /\
  entry st' 1 "counter" = entry st 1 "counter".
Proof.
  intros st. do 2 eexists. split; [reflexivity |].
  eapply (cached_property_instances_independent 0
           [Access (counter_prop 0) 1 0; Access (counter_prop 0) 2 0] st _ 1 2
           [Mutate 5; Invalidate 2 "counter"; Access (counter_prop 0) 2 9]);
    [reflexivity | discriminate | repeat constructor | reflexivity].
Defined.

End CacheTheorems.

Module PtyControlFacts.
Import PtyControl.

(** A process whose controlling terminal is [/dev/pts/0], holding the pty
    slave [/dev/pts/3] on descriptor 5, on a kernel test double where the
    detachment by [setsid] does not take effect. *)
Definition sticky_os : os :=
  mk_os (Some "/dev/pts/0") false {[5 := "/dev/pts/3"]} ["/dev/pts/3"; "/dev/pts/0"]
        ["/dev/pts/3"; "/dev/pts/0"] {[5 := "/dev/pts/3"]} 6 true [].

(** The same process on a kernel where [setsid] detaches. *)
Definition normal_os : os :=
  mk_os (Some "/dev/pts/0") false {[5 := "/dev/pts/3"]} ["/dev/pts/3"; "/dev/pts/0"]
        ["/dev/pts/3"; "/dev/pts/0"] {[5 := "/dev/pts/3"]} 6 false [].

Example pty_make_controlling_tty_normal :
  fst (pty_make_controlling_tty 5 normal_os) = Ok tt /\
  ctty (snd (pty_make_controlling_tty 5 normal_os)) = Some "/dev/pts/3".
Proof. split; reflexivity. Qed.

(** Computations that never end in the detachment error. *)
Definition no_detach_err {A} (m : M A) : Prop :=
  forall s, fst (m s) <> Err (Exception_ detach_msg).

Lemma ret_nde {A} (a : A) : no_detach_err (ret a).
Proof. intros s. discriminate. Qed.

Lemma raise_nde {A} (e : py_exc) : e <> Exception_ detach_msg -> no_detach_err (@raise A e).
Proof. intros He s H. injection H as H. congruence. Qed.

Lemma bind_nde {A B} (m : M A) (k : A -> M B) :
  no_detach_err m -> (forall a, no_detach_err (k a)) -> no_detach_err (bind m k).
Proof.
  intros Hm Hk s. unfold bind. specialize (Hm s).
  destruct (m s) as [[a|e] s']; [apply Hk |].
  simpl in *. intros H. apply Hm. injection H as ->. reflexivity.
Qed.

Lemma try_except_nde {A} (m : M A) (h : py_exc -> M A) :
  (forall e, no_detach_err (h e)) -> no_detach_err (try_except m h).
Proof.
  intros Hh s. unfold try_except.
  destruct (m s) as [[a|e] s']; [discriminate | apply Hh].
Qed.

Lemma when_nonneg_nde (fd : Z) (m1 m2 : M unit) :
  no_detach_err m1 -> no_detach_err m2 -> no_detach_err (when_nonneg fd m1 m2).
Proof. unfold when_nonneg. destruct (0 <=? fd); auto. Qed.

Lemma os_ttyname_nde (fd : Z) : no_detach_err (os_ttyname fd).
Proof. intros s. unfold os_ttyname. destruct (_ !! fd); discriminate. Qed.

Lemma os_open_nde (path : string) (flags : Z) : no_detach_err (os_open path flags).
Proof.
  intros s. unfold os_open.
  destruct (String.eqb path "/dev/tty").
  - destruct (ctty _); [destruct (alloc_fd _ _ _)|]; discriminate.
  - destruct (existsb _ _); [destruct (alloc_fd _ _ _)|]; discriminate.
Qed.

Lemma os_close_nde (fd : Z) : no_detach_err (os_close fd).
Proof. intros s. unfold os_close. destruct (_ !! fd); discriminate. Qed.

Lemma os_setsid_nde : no_detach_err os_setsid.
Proof. intros s. unfold os_setsid. destruct (pgrp_leader _); discriminate. Qed.

Create HintDb nde.
#[local] Hint Resolve ret_nde bind_nde try_except_nde when_nonneg_nde os_ttyname_nde
  os_open_nde os_close_nde os_setsid_nde : nde.

(** C1 (code_bug): the [raise] after a successful re-probe sits inside the
    [try] whose bare [except:] swallows it, so the function never fails
    with the detachment error; on the kernel double where the re-probe
    succeeds it goes on to open the child pty and [/dev/tty] and returns
    normally, with the old terminal still controlling the process. *)
Theorem pty_make_controlling_tty_reprobe_error_swallowed :
  (forall (tty_fd : Z) (s : os),
     fst (pty_make_controlling_tty tty_fd s) <> Err (Exception_ detach_msg)) /\
  pty_make_controlling_tty 5 sticky_os =
    (Ok tt,
     mk_os (Some "/dev/pts/0") false {[5 := "/dev/pts/3"]} ["/dev/pts/3"; "/dev/pts/0"]
           ["/dev/pts/3"; "/dev/pts/0"] {[5 := "/dev/pts/3"]} 10 true
           [SysTtyname 5; SysOpen "/dev/tty" 258; SysClose 6; SysSetsid;
            SysOpen "/dev/tty" 258; SysClose 7; SysOpen "/dev/pts/3" 2; SysClose 8;
            SysOpen "/dev/tty" 1; SysClose 9]).
Proof.
  split; [| vm_compute; reflexivity].
  intros tty_fd. change (no_detach_err (pty_make_controlling_tty tty_fd)).
  unfold pty_make_controlling_tty.
  apply bind_nde; [auto with nde | intros name].
  apply bind_nde; [auto with nde | intros _].
  apply bind_nde; [auto with nde | intros _].
  apply bind_nde; [auto with nde | intros _].
  apply bind_nde; [auto with nde | intros fd].
  apply bind_nde.
  - apply when_nonneg_nde; [auto with nde | apply raise_nde; discriminate].
  - intros _. apply bind_nde; [auto with nde | intros fd'].
    apply when_nonneg_nde; [auto with nde | apply raise_nde; discriminate].
Qed.

End PtyControlFacts.

Module DaemonFacts.
Import Daemon.

Section Invariant.
Variable a : args.
Variable p0 : proc.

Definition in_s : stream := mk_stream (stdin a) "rb" (-1).
Definition out_s : stream := mk_stream (stdout a) "ab+" (-1).
Definition err_s : stream := mk_stream (stderr a) "ab+" 0.

Definition std_orig (p : proc) : Prop :=
  fd0 p = fd0 p0 /\ fd1 p = fd1 p0 /\ fd2 p = fd2 p0.

Definition no_locals (p : proc) : Prop :=
  si p = None /\ so p = None /\ se p = None.

(** The invoking process, unchanged apart from its program point. *)
Definition orig_like (p : proc) : Prop :=
  ppid p = ppid p0 /\ sid p = sid p0 /\ cwd p = cwd p0 /\ umask p = umask p0 /\
  ctty p = ctty p0 /\ std_orig p /\ no_locals p.

(** A child of the invoking process. *)
Definition gen1 (p : proc) : Prop :=
  ppid p = pid p0 /\ pid p <> pid p0 /\ std_orig p /\ no_locals p.

Definition detached (p : proc) : Prop :=
  cwd p = "/" /\ umask p = 0 /\ sid p = pid p /\ ctty p = None.

Definition did3 (ev : list event) (k : Z) : Prop :=
  EvChdir k ∈ ev /\ EvUmask k ∈ ev /\ EvSetsid k ∈ ev.

(** A grandchild: its parent is a child of the invoking process, which
    did the chdir/umask/setsid; the grandchild inherited their effects
    and is a member, not the leader, of the parent's session. *)
Definition gen2 (st : sys) (p : proc) : Prop :=
  pid p <> pid p0 /\ ppid p <> pid p0 /\ pid p <> ppid p /\
  (exists q, procs st !! ppid p = Some q /\ ppid q = pid p0) /\
  cwd p = "/" /\ umask p = 0 /\ sid p = ppid p /\ ctty p = None /\
  did3 (events st) (ppid p).

Definition pinv (st : sys) (p : proc) : Prop :=
  match pc p with
  | AtFork1 => pid p = pid p0 /\ orig_like p
  | AtWait c => pid p = pid p0 /\ orig_like p /\ c <> pid p0 /\
                exists q, procs st !! c = Some q /\ ppid q = pid p0
  | AtChdir => gen1 p /\ cwd p = cwd p0 /\ umask p = umask p0 /\ sid p = sid p0 /\
               ctty p = ctty p0
  | AtUmask => gen1 p /\ cwd p = "/" /\ umask p = umask p0 /\ sid p = sid p0 /\
               ctty p = ctty p0 /\ EvChdir (pid p) ∈ events st
  | AtSetsid => gen1 p /\ cwd p = "/" /\ umask p = 0 /\ sid p = sid p0 /\
                ctty p = ctty p0 /\ EvChdir (pid p) ∈ events st /\ EvUmask (pid p) ∈ events st
  | AtFork2 => gen1 p /\ detached p /\ did3 (events st) (pid p)
  | AtOpenStdin => gen2 st p /\ std_orig p /\ no_locals p
  | AtOpenStdout => gen2 st p /\ std_orig p /\ si p = Some in_s /\ so p = None /\ se p = None
  | AtOpenStderr => gen2 st p /\ std_orig p /\ si p = Some in_s /\ so p = Some out_s /\
                    se p = None
  | AtDup0 => gen2 st p /\ std_orig p /\ si p = Some in_s /\ so p = Some out_s /\
              se p = Some err_s
  | AtDup1 => gen2 st p /\ fd0 p = in_s /\ fd1 p = fd1 p0 /\ fd2 p = fd2 p0 /\
              so p = Some out_s /\ se p = Some err_s
  | AtDup2 => gen2 st p /\ fd0 p = in_s /\ fd1 p = out_s /\ fd2 p = fd2 p0 /\
              se p = Some err_s
  | Returned r =>
      (r = 0 /\ pid p = pid p0 /\ orig_like p /\
       exists c q, c <> pid p0 /\ procs st !! c = Some q /\ ppid q = pid p0 /\
                   is_exited (pc q) = true /\ EvWaited (pid p) c ∈ events st) \/
      (r = 1 /\ gen2 st p /\ fd0 p = in_s /\ fd1 p = out_s /\ fd2 p = err_s)
  | Exited s =>
      (pid p = pid p0 /\ s = 1 /\ orig_like p) \/
      (gen1 p /\ detached p /\ did3 (events st) (pid p) /\ (s = 0 \/ s = 1))
  | Raised _ => gen2 st p
  end.

Definition stderr_report (st : sys) (k : Z) (tgt : stream) (stage : Z) : Prop :=
  exists p, procs st !! k = Some p /\ pc p = Exited 1 /\ tgt = fd2 p0 /\
    ((stage = 1 /\ k = pid p0 /\ ctty p = ctty p0) \/
     (stage = 2 /\ ppid p = pid p0 /\ k <> pid p0 /\ ctty p = None)).

Definition inv (st : sys) : Prop :=
  (exists p, procs st !! pid p0 = Some p) /\
  (forall k p, procs st !! k = Some p -> pid p = k /\ pinv st p) /\
  (forall k, EvChdir k ∈ events st \/ EvUmask k ∈ events st \/ EvSetsid k ∈ events st ->
     exists q, procs st !! k = Some q /\ ppid q = pid p0 /\ k <> pid p0) /\
  (forall k tgt stage e, EvStderr k tgt (ForkFailedMsg stage e) ∈ events st ->
     stderr_report st k tgt stage).

Definition frame (st st' : sys) : Prop :=
  (forall c q, procs st !! c = Some q -> exists q', procs st' !! c = Some q' /\ ppid q' = ppid q) /\
  (forall c q, procs st !! c = Some q -> is_exited (pc q) = true -> procs st' !! c = Some q) /\
  (forall e, e ∈ events st -> e ∈ events st').

Lemma did3_frame (st st' : sys) (k : Z) :
  frame st st' -> did3 (events st) k -> did3 (events st') k.
Proof. intros (_ & _ & H) (H1 & H2 & H3). split; [|split]; auto. Qed.

Lemma gen2_frame (st st' : sys) (p : proc) :
  frame st st' -> gen2 st p -> gen2 st' p.
Proof.
  intros Hf (H1 & H2 & H3 & (q & Hq & Hpq) & H5 & H6 & H7 & H8 & H9).
  destruct Hf as (F1 & F2 & F3) eqn:Hf'.
  destruct (F1 _ _ Hq) as (q' & Hq' & Hpp).
  repeat split; try assumption.
  - exists q'. split; [exact Hq' | congruence].
  - apply F3, H9.
  - apply F3, H9.
  - apply F3, H9.
Qed.

Lemma pinv_frame (st st' : sys) (p : proc) :
  frame st st' -> pinv st p -> pinv st' p.
Proof.
  intros Hf. pose proof Hf as (F1 & F2 & F3).
  pose proof (gen2_frame st st' p Hf) as G.
  unfold pinv. destruct (pc p) as [ | c | | | | | | | | | | | r | s | e ].
  - (* AtFork1 *) tauto.
  - (* AtWait *)
    intros (H1 & H2 & H3 & q & Hq & Hpq). destruct (F1 _ _ Hq) as (q' & Hq' & Hpp).
    refine (conj H1 (conj H2 (conj H3 _))). exists q'. split; [exact Hq' | congruence].
  - (* AtChdir *) tauto.
  - (* AtUmask *) intros (H1 & H2 & H3 & H4 & H5 & H6).
    exact (conj H1 (conj H2 (conj H3 (conj H4 (conj H5 (F3 _ H6)))))).
  - (* AtSetsid *) intros (H1 & H2 & H3 & H4 & H5 & H6 & H7).
    exact (conj H1 (conj H2 (conj H3 (conj H4 (conj H5 (conj (F3 _ H6) (F3 _ H7))))))).
  - (* AtFork2 *)
    intros (H1 & H2 & H3). exact (conj H1 (conj H2 (did3_frame st st' _ Hf H3))).
  - intros [Hg Hr]. split; [apply G, Hg | exact Hr].
  - intros [Hg Hr]. split; [apply G, Hg | exact Hr].
  - intros [Hg Hr]. split; [apply G, Hg | exact Hr].
  - intros [Hg Hr]. split; [apply G, Hg | exact Hr].
  - intros [Hg Hr]. split; [apply G, Hg | exact Hr].
  - intros [Hg Hr]. split; [apply G, Hg | exact Hr].
  - (* Returned *)
    intros [(H1 & H2 & H3 & c & q & Hc & Hq & Hpq & Hx & Hw) | (H1 & H2 & H3)].
    + left. refine (conj H1 (conj H2 (conj H3 _))). exists c, q.
      exact (conj Hc (conj (F2 _ _ Hq Hx) (conj Hpq (conj Hx (F3 _ Hw))))).
    + right. split; [exact H1 | split; [apply G, H2 | exact H3]].
  - (* Exited *)
    intros [H | (H1 & H2 & H3 & H4)]; [left; exact H | right].
    exact (conj H1 (conj H2 (conj (did3_frame st st' _ Hf H3) H4))).
  - (* Raised *) exact G.
Qed.

Lemma upd_frame (st : sys) (p p' : proc) (evs : list event) :
  procs st !! pid p = Some p -> is_exited (pc p) = false ->
  pid p' = pid p -> ppid p' = ppid p -> frame st (upd st p' evs).
Proof.
  intros Hp Hx Hpid Hpp. unfold upd. rewrite Hpid. split; [|split]; simpl.
  - intros c q Hq. destruct (decide (c = pid p)) as [->|Hne].
    + rewrite lookup_insert_eq. exists p'. rewrite Hp in Hq. injection Hq as <-. auto.
    + rewrite lookup_insert_ne by congruence. eauto.
  - intros c q Hq Hxq. destruct (decide (c = pid p)) as [->|Hne].
    + rewrite Hp in Hq. injection Hq as <-. congruence.
    + rewrite lookup_insert_ne by congruence. exact Hq.
  - intros e He. apply elem_of_app. left. exact He.
Qed.

Lemma fork_frame (st : sys) (k n : Z) (p p' c : proc) (evs : list event) :
  procs st !! k = Some p -> is_exited (pc p) = false -> ppid p' = ppid p ->
  procs st !! n = None ->
  frame st (mk_sys (<[n := c]> (<[k := p']> (procs st))) (events st ++ evs)).
Proof.
  intros Hp Hx Hpp Hn. split; [|split]; simpl.
  - intros c' q Hq. assert (c' <> n) by congruence.
    rewrite lookup_insert_ne by congruence.
    destruct (decide (c' = k)) as [->|Hne].
    + rewrite lookup_insert_eq. exists p'. rewrite Hp in Hq. injection Hq as <-. auto.
    + rewrite lookup_insert_ne by congruence. eauto.
  - intros c' q Hq Hxq. assert (c' <> n) by congruence.
    rewrite lookup_insert_ne by congruence.
    destruct (decide (c' = k)) as [->|Hne].
    + rewrite Hp in Hq. injection Hq as <-. congruence.
    + rewrite lookup_insert_ne by congruence. exact Hq.
  - intros e He. apply elem_of_app. left. exact He.
Qed.

Lemma stderr_report_frame (st st' : sys) (k : Z) (tgt : stream) (stage : Z) :
  frame st st' -> stderr_report st k tgt stage -> stderr_report st' k tgt stage.
Proof.
  intros (_ & F2 & _) (q & Hq & Hx & Ht & Hs).
  exists q. split; [apply F2; [exact Hq | rewrite Hx; reflexivity] | auto].
Qed.

(** What the events appended by a statement of process [p] (now [p'])
    may say. *)
Definition ev_ok (p p' : proc) (ev : event) : Prop :=
  match ev with
  | EvChdir k | EvUmask k | EvSetsid k => k = pid p /\ ppid p = pid p0 /\ pid p <> pid p0
  | EvStderr k tgt (ForkFailedMsg stage _) =>
      k = pid p /\ pc p' = Exited 1 /\ tgt = fd2 p0 /\
      ((stage = 1 /\ pid p = pid p0 /\ ctty p' = ctty p0) \/
       (stage = 2 /\ ppid p = pid p0 /\ pid p <> pid p0 /\ ctty p' = None))
  | _ => True
  end.

Definition ev_fork_ok (ev : event) : Prop :=
  match ev with
  | EvChdir _ | EvUmask _ | EvSetsid _ | EvStderr _ _ _ => False
  | _ => True
  end.

Lemma upd_inv (st : sys) (p p' : proc) (evs : list event) :
  inv st -> procs st !! pid p = Some p -> is_exited (pc p) = false ->
  pid p' = pid p -> ppid p' = ppid p ->
  pinv (upd st p' evs) p' -> Forall (ev_ok p p') evs ->
  inv (upd st p' evs).
Proof.
  intros (I0 & I1 & I2 & I3) Hp Hx Hpid Hpp Hinv' Hall.
  rewrite Forall_forall in Hall.
  pose proof (upd_frame st p p' evs Hp Hx Hpid Hpp) as Hf.
  pose proof Hf as (F1 & F2 & F3).
  split; [|split; [|split]].
  - destruct I0 as [q Hq]. destruct (F1 _ _ Hq) as (q' & Hq' & _). eauto.
  - intros k q Hq. unfold upd in Hq. simpl in Hq. rewrite Hpid in Hq.
    destruct (decide (k = pid p)) as [->|Hne].
    + rewrite lookup_insert_eq in Hq. injection Hq as <-. auto.
    + rewrite lookup_insert_ne in Hq by congruence.
      destruct (I1 _ _ Hq) as [Hk Hq']. split; [exact Hk | exact (pinv_frame _ _ _ Hf Hq')].
  - intros k Hk. unfold upd in Hk |- *. simpl in Hk |- *. rewrite !elem_of_app in Hk.
    assert (Hcase : (EvChdir k ∈ events st \/ EvUmask k ∈ events st \/ EvSetsid k ∈ events st)
                    \/ (k = pid p /\ ppid p = pid p0 /\ pid p <> pid p0)).
    { destruct Hk as [[H|H]|[[H|H]|[H|H]]]; auto;
        right; exact (Hall _ H). }
    destruct Hcase as [Hold|(-> & Hp0 & Hne)].
    + destruct (I2 _ Hold) as (q & Hq & Hpq & Hk0).
      destruct (F1 _ _ Hq) as (q' & Hq' & Hpp'). exists q'. unfold upd in Hq'. simpl in Hq'.
      split; [exact Hq' | split; [congruence | exact Hk0]].
    + exists p'. rewrite Hpid, lookup_insert_eq.
      split; [reflexivity | split; [congruence | exact Hne]].
  - intros k tgt stage e He. unfold upd in He. simpl in He. apply elem_of_app in He.
    destruct He as [He|He].
    + exact (stderr_report_frame _ _ _ _ _ Hf (I3 _ _ _ _ He)).
    + destruct (Hall _ He) as (-> & Hx' & Ht & Hs).
      exists p'. unfold upd. simpl. rewrite Hpid, lookup_insert_eq.
      split; [reflexivity | split; [exact Hx' | split; [exact Ht |]]].
      destruct Hs as [(H1 & H2 & H3) | (H1 & H2 & H3 & H4)];
        [left; auto | right; split; [exact H1 | split; [congruence | split; [congruence | exact H4]]]].
Qed.

Lemma fork_inv (st : sys) (k n : Z) (p p' c : proc) (evs : list event) :
  inv st -> procs st !! k = Some p -> is_exited (pc p) = false -> procs st !! n = None ->
  pid p' = k -> ppid p' = ppid p -> pid c = n ->
  pinv (mk_sys (<[n := c]> (<[k := p']> (procs st))) (events st ++ evs)) p' ->
  pinv (mk_sys (<[n := c]> (<[k := p']> (procs st))) (events st ++ evs)) c ->
  Forall ev_fork_ok evs ->
  inv (mk_sys (<[n := c]> (<[k := p']> (procs st))) (events st ++ evs)).
Proof.
  intros (I0 & I1 & I2 & I3) Hp Hx Hn Hpid Hpp Hcid Hinvp Hinvc Hall.
  rewrite Forall_forall in Hall.
  pose proof (fork_frame st k n p p' c evs Hp Hx Hpp Hn) as Hf.
  pose proof Hf as (F1 & F2 & F3).
  split; [|split; [|split]].
  - destruct I0 as [q Hq]. destruct (F1 _ _ Hq) as (q' & Hq' & _). eauto.
  - intros k' q Hq. simpl in Hq. destruct (decide (k' = n)) as [->|Hne].
    + rewrite lookup_insert_eq in Hq. injection Hq as <-. auto.
    + rewrite lookup_insert_ne in Hq by congruence.
      destruct (decide (k' = k)) as [->|Hne'].
      * rewrite lookup_insert_eq in Hq. injection Hq as <-. auto.
      * rewrite lookup_insert_ne in Hq by congruence.
        destruct (I1 _ _ Hq) as [Hk Hq']. split; [exact Hk | exact (pinv_frame _ _ _ Hf Hq')].
  - intros k' Hk. simpl in Hk. rewrite !elem_of_app in Hk.
    assert (Hold : EvChdir k' ∈ events st \/ EvUmask k' ∈ events st \/ EvSetsid k' ∈ events st).
    { destruct Hk as [[H|H]|[[H|H]|[H|H]]]; auto; destruct (Hall _ H). }
    destruct (I2 _ Hold) as (q & Hq & Hpq & Hk0).
    destruct (F1 _ _ Hq) as (q' & Hq' & Hpp'). exists q'.
    split; [exact Hq' | split; [congruence | exact Hk0]].
  - intros k' tgt stage e He. simpl in He. apply elem_of_app in He.
    destruct He as [He|He]; [| destruct (Hall _ He)].
    exact (stderr_report_frame _ _ _ _ _ Hf (I3 _ _ _ _ He)).
Qed.

Lemma ev_in_l (x : event) (l r : list event) : x ∈ l -> x ∈ l ++ r.
Proof. intros H. apply elem_of_app. left. exact H. Qed.

Lemma ev_in_1 (x : event) (l r : list event) : x ∈ l ++ x :: r.
Proof. apply elem_of_app. right. apply elem_of_cons. left. reflexivity. Qed.

Lemma ev_in_2 (x y : event) (l r : list event) : x ∈ l ++ y :: x :: r.
Proof. apply elem_of_app. right. rewrite !elem_of_cons. right. left. reflexivity. Qed.

Lemma inv_start : inv (start p0).
Proof.
  unfold start. split; [|split; [|split]]; simpl.
  - eexists. apply lookup_singleton_eq.
  - intros k q Hq. apply lookup_singleton_Some in Hq as [<- <-].
    split; [reflexivity|]. unfold pinv. cbn [pc].
    split; [reflexivity|]. repeat split; reflexivity.
  - intros k Hk. rewrite !elem_of_nil in Hk. tauto.
  - intros k tgt stage e He. apply elem_of_nil in He. contradiction.
Qed.

Local Ltac get_frame :=
  match goal with
  | Hk : procs ?st !! pid ?p = Some ?p, Hx : is_exited (pc ?p) = false
    |- pinv (upd ?st ?q ?l) _ =>
      pose proof (upd_frame st p q l Hk Hx eq_refl eq_refl) as Hf
  end.

Lemma step_inv (st st' : sys) (k : Z) (out : outcome) :
  inv st -> step_fn a st k out = Some st' -> inv st'.
Proof.
  intros Hinv Hs. pose proof Hinv as (I0 & I1 & I2 & I3).
  unfold step_fn in Hs. destruct (procs st !! k) as [p|] eqn:Hk; [|discriminate].
  destruct (I1 _ _ Hk) as [Hpid Hp]. subst k.
  unfold pinv in Hp. revert Hs Hp.
  destruct (pc p) as [ | c | | | | | | | | | | | r | s0 | e0 ] eqn:Hpc;
    destruct out as [n|e]; intros Hs Hp; try discriminate;
    assert (Hx : is_exited (pc p) = false) by (rewrite Hpc; reflexivity).
  - (* first fork succeeds *)
    destruct Hp as [Hp1 Hp2]. pose proof Hp2 as (O1 & O2 & O3 & O4 & O5 & O6 & O7).
    destruct (procs st !! n) eqn:Hn; [discriminate|].
    destruct (0 <? n); [|discriminate]. injection Hs as <-.
    assert (Hn0 : n <> pid p0) by (destruct I0 as [q Hq]; congruence).
    apply (fork_inv st (pid p) n p); try assumption; try reflexivity.
    + unfold pinv. cbn [pc with_pc].
      refine (conj Hp1 (conj Hp2 (conj Hn0 _))).
      exists (forked p n AtChdir). cbn [procs]. rewrite lookup_insert_eq.
      split; [reflexivity | exact Hp1].
    + unfold pinv. cbn [pc forked].
      exact (conj (conj Hp1 (conj Hn0 (conj O6 O7))) (conj O3 (conj O4 (conj O2 O5)))).
    + repeat constructor.
  - (* first fork fails *)
    destruct Hp as [Hp1 Hp2]. pose proof Hp2 as (O1 & O2 & O3 & O4 & O5 & (S0 & S1 & S2) & O7).
    injection Hs as <-. apply (upd_inv st p); try assumption; try reflexivity.
    + unfold pinv. cbn [pc with_pc]. left. exact (conj Hp1 (conj eq_refl Hp2)).
    + constructor; [|repeat constructor].
      exact (conj eq_refl (conj eq_refl (conj S2 (or_introl (conj eq_refl (conj Hp1 O5)))))).
  - (* waitpid on the first child *)
    destruct Hp as (H1 & H2 & H3 & q0 & Hq0 & Hpq0).
    destruct (procs st !! c) as [q|] eqn:Hc; [|discriminate].
    destruct (is_exited (pc q)) eqn:Hxq; [|discriminate]. injection Hs as <-.
    injection Hq0 as <-.
    apply (upd_inv st p); try assumption; try reflexivity.
    + unfold pinv. cbn [pc with_pc]. left.
      refine (conj eq_refl (conj H1 (conj H2 _))). exists c, q.
      refine (conj H3 (conj _ (conj Hpq0 (conj Hxq _)))).
      * unfold upd. cbn [procs pid with_pc]. rewrite lookup_insert_ne by congruence. exact Hc.
      * unfold upd. cbn [events pid with_pc]. apply ev_in_1.
    + repeat constructor.
  - (* chdir *)
    destruct Hp as (G & H2 & H3 & H4 & H5). pose proof G as (G1 & G2 & G3 & G4).
    injection Hs as <-. apply (upd_inv st p); try assumption; try reflexivity.
    + unfold pinv. cbn [pc pid].
      refine (conj G (conj eq_refl (conj H3 (conj H4 (conj H5 _))))).
      unfold upd. cbn [events]. apply ev_in_1.
    + constructor; [|constructor]. exact (conj eq_refl (conj G1 G2)).
  - (* umask *)
    destruct Hp as (G & H2 & H3 & H4 & H5 & H6). pose proof G as (G1 & G2 & G3 & G4).
    injection Hs as <-. apply (upd_inv st p); try assumption; try reflexivity.
    + unfold pinv. cbn [pc pid].
      refine (conj G (conj H2 (conj eq_refl (conj H4 (conj H5 (conj _ _)))))).
      * unfold upd. cbn [events]. apply ev_in_l, H6.
      * unfold upd. cbn [events]. apply ev_in_1.
    + constructor; [|constructor]. exact (conj eq_refl (conj G1 G2)).
  - (* setsid *)
    destruct Hp as (G & H2 & H3 & H4 & H5 & H6 & H7). pose proof G as (G1 & G2 & G3 & G4).
    injection Hs as <-. apply (upd_inv st p); try assumption; try reflexivity.
    + unfold pinv. cbn [pc pid].
      refine (conj G (conj (conj H2 (conj H3 (conj eq_refl eq_refl))) (conj _ (conj _ _)))).
      * unfold upd. cbn [events]. apply ev_in_l, H6.
      * unfold upd. cbn [events]. apply ev_in_l, H7.
      * unfold upd. cbn [events]. apply ev_in_1.
    + constructor; [|constructor]. exact (conj eq_refl (conj G1 G2)).
  - (* second fork succeeds *)
    destruct Hp as (G & D & H3). pose proof G as (G1 & G2 & G3 & G4).
    pose proof D as (D1 & D2 & D3 & D4).
    destruct (procs st !! n) eqn:Hn; [discriminate|].
    destruct (0 <? n); [|discriminate]. injection Hs as <-.
    assert (Hn0 : n <> pid p0) by (destruct I0 as [q Hq]; congruence).
    assert (Hnp : n <> pid p) by congruence.
    pose proof (fork_frame st (pid p) n p (with_pc p (Exited 0)) (forked p n AtOpenStdin)
                  [EvFork 2 (pid p) n; EvExit (pid p) 0] Hk Hx eq_refl Hn) as Hf.
    apply (fork_inv st (pid p) n p); try assumption; try reflexivity.
    + unfold pinv. cbn [pc with_pc]. right.
      exact (conj G (conj D (conj (did3_frame _ _ _ Hf H3) (or_introl eq_refl)))).
    + unfold pinv. cbn [pc forked].
      refine (conj _ (conj G3 G4)).
      refine (conj Hn0 (conj G2 (conj Hnp (conj _ (conj D1 (conj D2 (conj D3 (conj D4 _)))))))).
      * exists (with_pc p (Exited 0)). cbn [procs ppid forked].
        rewrite lookup_insert_ne by congruence. rewrite lookup_insert_eq.
        split; [reflexivity | exact G1].
      * exact (did3_frame _ _ _ Hf H3).
    + repeat constructor.
  - (* second fork fails *)
    destruct Hp as (G & D & H3). pose proof G as (G1 & G2 & G3 & G4).
    pose proof D as (D1 & D2 & D3 & D4). pose proof G3 as (S0 & S1 & S2).
    injection Hs as <-.
    pose proof (upd_frame st p (with_pc p (Exited 1))
                  [EvStderr (pid p) (fd2 p) (ForkFailedMsg 2 e); EvExit (pid p) 1]
                  Hk Hx eq_refl eq_refl) as Hf.
    apply (upd_inv st p); try assumption; try reflexivity.
    + unfold pinv. cbn [pc with_pc]. right.
      exact (conj G (conj D (conj (did3_frame _ _ _ Hf H3) (or_intror eq_refl)))).
    + constructor; [|repeat constructor].
      exact (conj eq_refl (conj eq_refl (conj S2
               (or_intror (conj eq_refl (conj G1 (conj G2 D4))))))).
  - (* si = open(stdin, 'rb') *)
    destruct Hp as (G & S & L). pose proof L as (L1 & L2 & L3). injection Hs as <-.
    apply (upd_inv st p); try assumption; try reflexivity.
    + get_frame. unfold pinv. cbn [pc si so se].
      exact (conj (gen2_frame _ _ _ Hf G) (conj S (conj eq_refl (conj L2 L3)))).
    + constructor.
  - destruct Hp as (G & _). injection Hs as <-.
    apply (upd_inv st p); try assumption; try reflexivity.
    + get_frame. unfold pinv. cbn [pc with_pc]. exact (gen2_frame _ _ _ Hf G).
    + constructor.
  - (* so = open(stdout, 'ab+') *)
    destruct Hp as (G & S & L1 & L2 & L3). injection Hs as <-.
    apply (upd_inv st p); try assumption; try reflexivity.
    + get_frame. unfold pinv. cbn [pc si so se].
      exact (conj (gen2_frame _ _ _ Hf G) (conj S (conj L1 (conj eq_refl L3)))).
    + constructor.
  - destruct Hp as (G & _). injection Hs as <-.
    apply (upd_inv st p); try assumption; try reflexivity.
    + get_frame. unfold pinv. cbn [pc with_pc]. exact (gen2_frame _ _ _ Hf G).
    + constructor.
  - (* se = open(stderr, 'ab+', 0) *)
    destruct Hp as (G & S & L1 & L2 & L3). injection Hs as <-.
    apply (upd_inv st p); try assumption; try reflexivity.
    + get_frame. unfold pinv. cbn [pc si so se].
      exact (conj (gen2_frame _ _ _ Hf G) (conj S (conj L1 (conj L2 eq_refl)))).
    + constructor.
  - destruct Hp as (G & _). injection Hs as <-.
    apply (upd_inv st p); try assumption; try reflexivity.
    + get_frame. unfold pinv. cbn [pc with_pc]. exact (gen2_frame _ _ _ Hf G).
    + constructor.
  - (* os.dup2(si.fileno(), 0) *)
    destruct Hp as (G & (S0 & S1 & S2) & L1 & L2 & L3).
    rewrite L1 in Hs. injection Hs as <-.
    apply (upd_inv st p); try assumption; try reflexivity.
    + get_frame. unfold pinv. cbn [pc fd0 fd1 fd2 so se].
      exact (conj (gen2_frame _ _ _ Hf G) (conj eq_refl (conj S1 (conj S2 (conj L2 L3))))).
    + constructor.
  - (* os.dup2(so.fileno(), 1) *)
    destruct Hp as (G & F0 & F1 & F2 & L2 & L3).
    rewrite L2 in Hs. injection Hs as <-.
    apply (upd_inv st p); try assumption; try reflexivity.
    + get_frame. unfold pinv. cbn [pc fd0 fd1 fd2 se].
      exact (conj (gen2_frame _ _ _ Hf G) (conj F0 (conj eq_refl (conj F2 L3)))).
    + constructor.
  - (* os.dup2(se.fileno(), 2); return 1 *)
    destruct Hp as (G & F0 & F1 & F2 & L3).
    rewrite L3 in Hs. injection Hs as <-.
    apply (upd_inv st p); try assumption; try reflexivity.
    + get_frame. unfold pinv. cbn [pc fd0 fd1 fd2].
      right. exact (conj eq_refl (conj (gen2_frame _ _ _ Hf G) (conj F0 (conj F1 eq_refl)))).
    + repeat constructor.
Qed.

Lemma reachable_inv (st : sys) : reachable a p0 st -> inv st.
Proof.
  unfold reachable. intros H.
  refine (rtc_ind_r inv (start p0) inv_start _ st H).
  intros y z _ [k [out Hs]] IH. exact (step_inv _ _ _ _ IH Hs).
Qed.

End Invariant.


Lemma run_sched_rtc (a : args) (st st' : sys) (sched : list (Z * outcome)) :
  run_sched a st sched = Some st' -> rtc (step a) st st'.
Proof.
  revert st. induction sched as [|[k out] rest IH]; intros st H; simpl in H.
  - injection H as <-. apply rtc_refl.
  - destruct (step_fn a st k out) as [st1|] eqn:E; [|discriminate].
    eapply rtc_l; [exists k, out; exact E | exact (IH _ H)].
Qed.

Lemma demo_ok_reachable : reachable default_args demo_p0 demo_ok.
Proof. apply (run_sched_rtc _ _ _ sched_ok). vm_compute. reflexivity. Qed.

Lemma demo_fail1_reachable : reachable default_args demo_p0 demo_fail1.
Proof. apply (run_sched_rtc _ _ _ sched_fork1_fails). vm_compute. reflexivity. Qed.

Lemma demo_fail2_reachable : reachable default_args demo_p0 demo_fail2.
Proof. apply (run_sched_rtc _ _ _ sched_fork2_fails). vm_compute. reflexivity. Qed.

(** The processes of the concrete runs, as the model computes them. *)
Definition demo_caller_failed : proc :=
  mk_proc 100 1 1 "/home/user" 18 (Some "/dev/pts/0") demo_in demo_out demo_err
          None None None (Exited 1).

Definition demo_child_failed : proc :=
  mk_proc 101 100 101 "/" 0 None demo_in demo_out demo_err None None None (Exited 1).

Definition demo_caller_returned : proc :=
  mk_proc 100 1 1 "/home/user" 18 (Some "/dev/pts/0") demo_in demo_out demo_err
          None None None (Returned 0).

Definition demo_daemon : proc :=
  mk_proc 102 101 101 "/" 0 None
          (mk_stream "/dev/null" "rb" (-1)) (mk_stream "/dev/null" "ab+" (-1))
          (mk_stream "/dev/null" "ab+" 0)
          (Some (mk_stream "/dev/null" "rb" (-1))) (Some (mk_stream "/dev/null" "ab+" (-1)))
          (Some (mk_stream "/dev/null" "ab+" 0)) (Returned 1).

Lemma demo_fail1_caller : procs demo_fail1 !! 100 = Some demo_caller_failed.
Proof. vm_compute. reflexivity. Qed.

Lemma demo_fail2_child : procs demo_fail2 !! 101 = Some demo_child_failed.
Proof. vm_compute. reflexivity. Qed.

Lemma demo_ok_caller : procs demo_ok !! 100 = Some demo_caller_returned.
Proof. vm_compute. reflexivity. Qed.

Lemma demo_ok_daemon : procs demo_ok !! 102 = Some demo_daemon.
Proof. vm_compute. reflexivity. Qed.

Lemma demo_fail1_events :
  events demo_fail1 = [EvStderr 100 demo_err (ForkFailedMsg 1 EAGAIN); EvExit 100 1].
Proof. vm_compute. reflexivity. Qed.

Lemma demo_fail2_events :
  events demo_fail2 =
    [EvFork 1 100 101; EvChdir 101; EvUmask 101; EvSetsid 101;
     EvStderr 101 demo_err (ForkFailedMsg 2 EAGAIN); EvExit 101 1].
Proof. vm_compute. reflexivity. Qed.

Lemma demo_ok_events :
  events demo_ok =
    [EvFork 1 100 101; EvChdir 101; EvUmask 101; EvSetsid 101;
     EvFork 2 101 102; EvExit 101 0; EvWaited 100 101; EvReturn 100 0; EvReturn 102 1].
Proof. vm_compute. reflexivity. Qed.

End DaemonFacts.

Module DaemonTheorems.
Import Daemon DaemonFacts.

(** The reading of C2 that the failure statuses differ per stage, and the
    reading that the report goes out while the original controlling
    terminal is still attached, as predicates on reachable states. *)
Definition C2_distinct_status : Prop :=
  forall (a : args) (p0 : proc) (st1 st2 : sys) (k1 k2 : Z) (t1 t2 : stream) (e1 e2 : Z)
         (q1 q2 : proc),
    reachable a p0 st1 -> reachable a p0 st2 ->
    EvStderr k1 t1 (ForkFailedMsg 1 e1) ∈ events st1 -> procs st1 !! k1 = Some q1 ->
    EvStderr k2 t2 (ForkFailedMsg 2 e2) ∈ events st2 -> procs st2 !! k2 = Some q2 ->
    pc q1 <> pc q2.

Definition C2_still_attached : Prop :=
  forall (a : args) (p0 : proc) (st : sys) (k : Z) (t : stream) (stage e : Z) (q : proc),
    reachable a p0 st ->
    EvStderr k t (ForkFailedMsg stage e) ∈ events st -> procs st !! k = Some q ->
    ctty q = ctty p0.

(** Reading of C3: the process that returns 1 (the grandchild) is itself
    the one that did chdir, umask and setsid, so it leads its session. *)
Definition C3_as_stated : Prop :=
  forall (a : args) (p0 : proc) (st : sys) (k : Z) (q : proc),
    reachable a p0 st -> procs st !! k = Some q -> pc q = Returned 1 ->
    EvChdir k ∈ events st /\ EvUmask k ∈ events st /\ EvSetsid k ∈ events st /\ sid q = k.

(** C2 (counterexample): when the first fork fails the caller exits with
    status 1, and when the second fork fails the first child also exits
    with status 1, so the status does not tell the stages apart; and at
    the second stage the failing process has already left its session
    and has no controlling terminal. *)
Lemma daemonize_fork_failures_same_status : ~ C2_distinct_status /\ ~ C2_still_attached.
Proof.
  split.
  - intros H.
    refine (H default_args demo_p0 demo_fail1 demo_fail2 100 101 demo_err demo_err
              EAGAIN EAGAIN demo_caller_failed demo_child_failed
              demo_fail1_reachable demo_fail2_reachable _ demo_fail1_caller _
              demo_fail2_child eq_refl).
    + rewrite demo_fail1_events. apply elem_of_cons. left. reflexivity.
    + rewrite demo_fail2_events. rewrite !elem_of_cons. tauto.
  - intros H.
    assert (Hm : EvStderr 101 demo_err (ForkFailedMsg 2 EAGAIN) ∈ events demo_fail2)
      by (rewrite demo_fail2_events, !elem_of_cons; tauto).
    pose proof (H default_args demo_p0 demo_fail2 101 demo_err 2 EAGAIN demo_child_failed
                  demo_fail2_reachable Hm demo_fail2_child) as Hc.
    discriminate Hc.
Qed.

(** C2 (amended): a fork failure at either stage is fatal.  The failing
    process writes "fork #stage failed" to the standard error stream it
    inherited from the caller, exits with status 1 whatever the stage, and
    executes nothing more (no retry).  At stage 1 it is the caller, still
    attached to its controlling terminal; at stage 2 it is the first child,
    which has already called setsid and has no controlling terminal. *)
Theorem daemonize_fork_failure_fatal (a : args) (p0 : proc) (st : sys) (k : Z)
    (tgt : stream) (stage e : Z) :
  reachable a p0 st -> EvStderr k tgt (ForkFailedMsg stage e) ∈ events st ->
  exists q, procs st !! k = Some q /\ pc q = Exited 1 /\ tgt = fd2 p0 /\
    (forall out, step_fn a st k out = None) /\
    ((stage = 1 /\ k = pid p0 /\ ctty q = ctty p0) \/
     (stage = 2 /\ ppid q = pid p0 /\ k <> pid p0 /\ ctty q = None)).
Proof.
  intros R M. destruct (reachable_inv a p0 st R) as (_ & _ & _ & I3).
  destruct (I3 _ _ _ _ M) as (q & Hq & Hx & Ht & Hs).
  exists q. split; [exact Hq | split; [exact Hx | split; [exact Ht | split; [| exact Hs]]]].
  intros out. unfold step_fn. rewrite Hq, Hx. destruct out; reflexivity.
Qed.

Lemma daemonize_fork_failure_fatal_witness :
  reachable default_args demo_p0 demo_fail2 /\
  EvStderr 101 demo_err (ForkFailedMsg 2 EAGAIN) ∈ events demo_fail2 /\
  exists q, procs demo_fail2 !! 101 = Some q /\ pc q = Exited 1 /\ demo_err = fd2 demo_p0 /\
    (forall out, step_fn default_args demo_fail2 101 out = None) /\
    ((2 = 1 /\ 101 = pid demo_p0 /\ ctty q = ctty demo_p0) \/
     (2 = 2 /\ ppid q = pid demo_p0 /\ 101 <> pid demo_p0 /\ ctty q = None)).
Proof.
  assert (R : reachable default_args demo_p0 demo_fail2)
    by (apply (run_sched_rtc _ _ _ sched_fork2_fails); vm_compute; reflexivity).
  assert (M : EvStderr 101 demo_err (ForkFailedMsg 2 EAGAIN) ∈ events demo_fail2)
    by (vm_compute; repeat constructor).
  exact (conj R (conj M (daemonize_fork_failure_fatal default_args demo_p0 demo_fail2
                           101 demo_err 2 EAGAIN R M))).
Defined.

(** C3 (counterexample): in the run where both forks succeed, the process
    102 that returns 1 did not itself call chdir, umask or setsid (its
    parent 101 did), and it is not the leader of its session. *)
Lemma daemonize_grandchild_not_setsid : ~ C3_as_stated.
Proof.
  intros H.
  destruct (H default_args demo_p0 demo_ok 102 demo_daemon demo_ok_reachable demo_ok_daemon
              eq_refl) as (_ & _ & Hs & _).
  rewrite demo_ok_events in Hs. rewrite !elem_of_cons, elem_of_nil in Hs.
  repeat (destruct Hs as [Hs|Hs]; [discriminate Hs|]). exact Hs.
Qed.

(** C3 (amended): the first child (not the grandchild) changes its
    directory to "/", clears its umask and calls setsid, before the second
    fork.  The grandchild that returns 1 inherits the effects: its
    directory is "/", its umask 0, it has no controlling terminal and it is
    a member, not the leader, of the session its parent created; it makes
    none of these calls itself, and its standard streams are redirected to
    the supplied paths. *)
Theorem daemonize_setup_done_by_first_child (a : args) (p0 : proc) (st : sys) (k : Z)
    (q : proc) :
  reachable a p0 st -> procs st !! k = Some q -> pc q = Returned 1 ->
  k <> pid p0 /\ ppid q <> pid p0 /\
  (exists q1, procs st !! ppid q = Some q1 /\ ppid q1 = pid p0) /\
  EvChdir (ppid q) ∈ events st /\ EvUmask (ppid q) ∈ events st /\
  EvSetsid (ppid q) ∈ events st /\
  (EvChdir k ∉ events st) /\ (EvUmask k ∉ events st) /\ (EvSetsid k ∉ events st) /\
  cwd q = "/" /\ umask q = 0 /\ sid q = ppid q /\ sid q <> k /\ ctty q = None /\
  fd0 q = mk_stream (stdin a) "rb" (-1) /\ fd1 q = mk_stream (stdout a) "ab+" (-1) /\
  fd2 q = mk_stream (stderr a) "ab+" 0.
Proof.
  intros R Hq Hpc. destruct (reachable_inv a p0 st R) as (_ & I1 & I2 & _).
  destruct (I1 _ _ Hq) as [Hpid Hinv]. unfold pinv in Hinv. rewrite Hpc in Hinv.
  destruct Hinv as [(H10 & _) | (_ & G & F0 & F1 & F2)]; [discriminate H10|].
  destruct G as (G1 & G2 & G3 & G4 & G5 & G6 & G7 & G8 & (D1 & D2 & D3)).
  assert (Hnot : forall e, e = EvChdir k \/ e = EvUmask k \/ e = EvSetsid k -> e ∉ events st).
  { intros e He Hm.
    assert (Hk : EvChdir k ∈ events st \/ EvUmask k ∈ events st \/ EvSetsid k ∈ events st)
      by (destruct He as [ -> | [ -> | -> ] ]; tauto).
    destruct (I2 _ Hk) as (q' & Hq' & Hpq' & _). rewrite Hq in Hq'.
    injection Hq' as <-. exact (G2 Hpq'). }
  rewrite <- Hpid.
  repeat split; auto; try (apply Hnot; rewrite Hpid; tauto).
  rewrite G7. exact (not_eq_sym G3).
Qed.

Lemma daemonize_setup_done_by_first_child_witness :
  reachable default_args demo_p0 demo_ok /\ procs demo_ok !! 102 = Some demo_daemon /\
  pc demo_daemon = Returned 1 /\
  EvSetsid (ppid demo_daemon) ∈ events demo_ok /\ (EvSetsid 102 ∉ events demo_ok) /\
  sid demo_daemon <> 102.
Proof.
  assert (R : reachable default_args demo_p0 demo_ok)
    by (apply (run_sched_rtc _ _ _ sched_ok); vm_compute; reflexivity).
  assert (L : procs demo_ok !! 102 = Some demo_daemon) by (vm_compute; reflexivity).
  destruct (daemonize_setup_done_by_first_child default_args demo_p0 demo_ok 102 demo_daemon
              R L eq_refl) as (_ & _ & _ & _ & _ & H1 & _ & _ & H2 & _ & _ & _ & H3 & _).
  exact (conj R (conj L (conj eq_refl (conj H1 (conj H2 H3))))).
Defined.


(** C4: [daemonize] returns 0 (Parent) only in the invoking process, and
    only after its [waitpid] saw its first child terminated; it returns 1
    (Daemon) only in another process, whose standard input, output and
    error are the supplied paths opened with modes "rb", "ab+" and "ab+"
    unbuffered (with the default arguments, /dev/null for all three); it
    returns no other value. *)
Theorem daemonize_return_values (a : args) (p0 : proc) (st : sys) (k : Z) (q : proc) :
  reachable a p0 st -> procs st !! k = Some q ->
  (forall r, pc q = Returned r -> r = 0 \/ r = 1) /\
  (pc q = Returned 0 ->
     k = pid p0 /\
     exists c q', c <> pid p0 /\ procs st !! c = Some q' /\ ppid q' = pid p0 /\
                  is_exited (pc q') = true /\ EvWaited k c ∈ events st) /\
  (pc q = Returned 1 ->
     k <> pid p0 /\ fd0 q = mk_stream (stdin a) "rb" (-1) /\
     fd1 q = mk_stream (stdout a) "ab+" (-1) /\ fd2 q = mk_stream (stderr a) "ab+" 0).
Proof.
  intros R Hq. destruct (reachable_inv a p0 st R) as (_ & I1 & _ & _).
  destruct (I1 _ _ Hq) as [Hpid Hinv]. unfold pinv in Hinv.
  split; [|split].
  - intros r Hr. rewrite Hr in Hinv.
    destruct Hinv as [(H & _) | (H & _)]; [left | right]; exact H.
  - intros Hr. rewrite Hr in Hinv.
    destruct Hinv as [(_ & H1 & _ & H2) | (H & _)]; [|discriminate H].
    rewrite <- Hpid. exact (conj H1 H2).
  - intros Hr. rewrite Hr in Hinv.
    destruct Hinv as [(H & _) | (_ & (G1 & _) & F0 & F1 & F2)]; [discriminate H|].
    rewrite <- Hpid. exact (conj G1 (conj F0 (conj F1 F2))).
Qed.

Lemma daemonize_return_values_witness :
  reachable default_args demo_p0 demo_ok /\
  procs demo_ok !! 100 = Some demo_caller_returned /\
  procs demo_ok !! 102 = Some demo_daemon /\
  pc demo_caller_returned = Returned 0 /\ pc demo_daemon = Returned 1 /\
  (exists c q', c <> pid demo_p0 /\ procs demo_ok !! c = Some q' /\ ppid q' = pid demo_p0 /\
                is_exited (pc q') = true /\ EvWaited 100 c ∈ events demo_ok) /\
  fd0 demo_daemon = mk_stream "/dev/null" "rb" (-1) /\
  fd1 demo_daemon = mk_stream "/dev/null" "ab+" (-1) /\
  fd2 demo_daemon = mk_stream "/dev/null" "ab+" 0.
Proof.
  assert (R : reachable default_args demo_p0 demo_ok)
    by (apply (run_sched_rtc _ _ _ sched_ok); vm_compute; reflexivity).
  assert (L0 : procs demo_ok !! 100 = Some demo_caller_returned) by (vm_compute; reflexivity).
  assert (L1 : procs demo_ok !! 102 = Some demo_daemon) by (vm_compute; reflexivity).
  destruct (daemonize_return_values default_args demo_p0 demo_ok 100 demo_caller_returned R L0)
    as (_ & P0 & _).
  destruct (daemonize_return_values default_args demo_p0 demo_ok 102 demo_daemon R L1)
    as (_ & _ & P1).
  destruct (P0 eq_refl) as (_ & W). destruct (P1 eq_refl) as (_ & F).
  exact (conj R (conj L0 (conj L1 (conj eq_refl (conj eq_refl (conj W F)))))).
Defined.

End DaemonTheorems.

Module ShellFacts.
Import DefaultShell.

Definition unset_or_empty (environ : gmap string string) (name : string) : Prop :=
  environ !! name = None \/ environ !! name = Some "".

Lemma first_env_skip (environ : gmap string string) (pre rest : list string) :
  Forall (unset_or_empty environ) pre ->
  first_env environ (pre ++ rest) = first_env environ rest.
Proof.
  induction 1 as [|n pre [Hn|Hn] _ IH]; simpl; [reflexivity | |]; rewrite Hn; [exact IH|].
  simpl. exact IH.
Qed.

Lemma getpwnam_unique (db : list passwd) (e : passwd) :
  NoDup (map pw_name db) -> e ∈ db -> getpwnam db (pw_name e) = Ok e.
Proof.
  unfold getpwnam. induction db as [|x db IH]; intros Hnd He; [apply elem_of_nil in He; contradiction|].
  simpl in Hnd |- *. apply NoDup_cons in Hnd as [Hx Hnd].
  apply elem_of_cons in He as [->|He].
  - rewrite String.eqb_refl. reflexivity.
  - destruct (String.eqb (pw_name x) (pw_name e)) eqn:Eq.
    + apply String.eqb_eq in Eq. exfalso. apply Hx. rewrite Eq.
      apply list_elem_of_In, in_map, list_elem_of_In. exact He.
    + exact (IH Hnd He).
Qed.

(** [get_default_shell] names the user by the first of [LOGNAME], [USER],
    [LNAME], [USERNAME] that is set to a non-empty value, whatever the real
    user id of the process, and returns the shell of that name's entry in
    the password database ([KeyError] when the name has none). *)
Theorem get_default_shell_env_first (environ : gmap string string) (uid : Z)
    (db : list passwd) (pre post : list string) (v u : string) :
  pre ++ v :: post = getuser_vars ->
  Forall (unset_or_empty environ) pre ->
  environ !! v = Some u -> u <> "" ->
  get_default_shell environ uid db =
    match getpwnam db u with Ok e => Ok (pw_shell e) | Err err => Err err end.
Proof.
  intros Hv Hpre Hu Hne. unfold get_default_shell, getuser.
  rewrite <- Hv, (first_env_skip environ pre (v :: post) Hpre). simpl. rewrite Hu.
  destruct (String.eqb u "") eqn:E; [apply String.eqb_eq in E; contradiction | reflexivity].
Qed.

Lemma get_default_shell_env_first_witness :
  get_default_shell (<["LOGNAME" := ""]> {["USER" := "alice"]}) 0
    [mk_pw "root" 0 "/bin/bash"; mk_pw "alice" 1000 "/bin/zsh"] = Ok "/bin/zsh".
Proof.
  rewrite (get_default_shell_env_first (<["LOGNAME" := ""]> {["USER" := "alice"]}) 0
             [mk_pw "root" 0 "/bin/bash"; mk_pw "alice" 1000 "/bin/zsh"]
             ["LOGNAME"] ["LNAME"; "USERNAME"] "USER" "alice");
    [reflexivity | reflexivity | | reflexivity | discriminate].
  constructor; [unfold unset_or_empty; right; reflexivity | constructor].
Defined.

(** When none of the four variables is set to a non-empty value,
    [get_default_shell] goes by the real user id: if the password database
    has an entry for it (and user names are unique) the result is that
    entry's shell, and without an entry it raises [KeyError]. *)
Theorem get_default_shell_uid_fallback (environ : gmap string string) (uid : Z)
    (db : list passwd) :
  Forall (unset_or_empty environ) getuser_vars ->
  (forall e, getpwuid db uid = Ok e -> NoDup (map pw_name db) ->
     get_default_shell environ uid db = Ok (pw_shell e)) /\
  (Forall (fun e => pw_uid e <> uid) db -> get_default_shell environ uid db = Err KeyError).
Proof.
  intros Hall. unfold get_default_shell, getuser.
  rewrite <- (app_nil_r getuser_vars), (first_env_skip environ _ [] Hall). simpl.
  split.
  - intros e He Hnd. rewrite He.
    unfold getpwuid in He. destruct (List.find _ db) as [e'|] eqn:Ef; [|discriminate].
    injection He as <-. apply List.find_some in Ef as [Hin _].
    rewrite (getpwnam_unique db e' Hnd (proj2 (list_elem_of_In _ _) Hin)). reflexivity.
  - intros Hno. unfold getpwuid.
    destruct (List.find (fun e => pw_uid e =? uid) db) as [e|] eqn:Ef; [|reflexivity].
    apply List.find_some in Ef as [Hin Heq]. apply Z.eqb_eq in Heq.
    rewrite Forall_forall in Hno. exfalso.
    exact (Hno e (proj2 (list_elem_of_In _ _) Hin) Heq).
Qed.

Lemma get_default_shell_uid_fallback_witness :
  get_default_shell (<["USER" := ""]> ∅) 1000
    [mk_pw "root" 0 "/bin/bash"; mk_pw "alice" 1000 "/bin/zsh"] = Ok "/bin/zsh" /\
  get_default_shell (<["USER" := ""]> ∅) 42
    [mk_pw "root" 0 "/bin/bash"; mk_pw "alice" 1000 "/bin/zsh"] = Err KeyError.
Proof.
  assert (Hall : forall uid : Z, Forall (unset_or_empty (<["USER" := ""]> ∅)) getuser_vars)
    by (intros _; repeat constructor; unfold unset_or_empty; vm_compute; auto).
  split.
  - apply (proj1 (get_default_shell_uid_fallback _ 1000
                   [mk_pw "root" 0 "/bin/bash"; mk_pw "alice" 1000 "/bin/zsh"] (Hall 1000))
                (mk_pw "alice" 1000 "/bin/zsh")).
    + reflexivity.
    + apply (bool_decide_unpack _). vm_compute. exact I.
  - apply (proj2 (get_default_shell_uid_fallback _ 42 _ (Hall 42))).
    repeat constructor; discriminate.
Defined.

End ShellFacts.

Module WinsizeExtra.
Import Winsize WinsizeFacts.

Lemma u16_in_range (x : Z) :
  short_min <= x <= short_max -> u16 x = if x <? 0 then x + 65536 else x.
Proof.
  unfold short_min, short_max, u16. intros Hx.
  change 65535 with (Z.ones 16). rewrite Z.land_ones by lia.
  destruct (x <? 0) eqn:E.
  - apply Z.ltb_lt in E. symmetry. apply Z.mod_unique with (q := -1); lia.
  - apply Z.ltb_ge in E. apply Z.mod_small. lia.
Qed.

(** A successful [set_terminal_size] hands negative sizes to the kernel
    unchecked: a row or column count in [-32768, -1] is stored as its
    16-bit two's complement, [x + 65536], in the terminal's window size;
    non-negative counts are stored as given. *)
Theorem set_terminal_size_negative_wraps (k : kernel) (fd rows cols : Z) (kind : fd_kind) :
  short_min <= rows <= short_max -> short_min <= cols <= short_max ->
  k_fds k !! fd = Some kind -> kind <> NonTty ->
  fst (set_terminal_size k fd rows cols) = Ok tt /\
  k_winsz (snd (set_terminal_size k fd rows cols)) !! fd =
    Some (mk_winsize (if rows <? 0 then rows + 65536 else rows)
                     (if cols <? 0 then cols + 65536 else cols) 0 0).
Proof.
  intros Hr Hc Hk Hnt.
  unfold set_terminal_size. rewrite (array_h_in_range rows cols Hr Hc).
  unfold ioctl_TIOCSWINSZ. rewrite Hk.
  destruct kind; [| | contradiction]; simpl;
    (split; [reflexivity|]); rewrite lookup_insert_eq, !u16_in_range by assumption;
    reflexivity.
Qed.

Lemma set_terminal_size_negative_wraps_witness :
  k_winsz (snd (set_terminal_size (mk_kernel {[3 := PtyEndpoint]} ∅ []) 3 (-1) 80)) !! 3 =
    Some (mk_winsize 65535 80 0 0).
Proof.
  destruct (set_terminal_size_negative_wraps (mk_kernel {[3 := PtyEndpoint]} ∅ []) 3 (-1) 80
              PtyEndpoint) as [_ H];
    [unfold short_min, short_max; lia | unfold short_min, short_max; lia
    | reflexivity | discriminate |].
  rewrite H. reflexivity.
Defined.

(** Two successful calls on the same descriptor compose as the last one:
    the window sizes the kernel holds afterwards are those a single call
    with the second size would leave. *)
Theorem set_terminal_size_last_write_wins (k k1 : kernel) (fd r1 c1 r2 c2 : Z) :
  set_terminal_size k fd r1 c1 = (Ok tt, k1) ->
  short_min <= r2 <= short_max -> short_min <= c2 <= short_max ->
  fst (set_terminal_size k1 fd r2 c2) = Ok tt /\
  k_winsz (snd (set_terminal_size k1 fd r2 c2)) = k_winsz (snd (set_terminal_size k fd r2 c2)) /\
  k_fds (snd (set_terminal_size k1 fd r2 c2)) = k_fds k.
Proof.
  intros H1 Hr Hc. unfold set_terminal_size in *.
  destruct (array_h [r1; c1; 0; 0]) as [buf|e]; [|discriminate].
  rewrite (array_h_in_range r2 c2 Hr Hc).
  unfold ioctl_TIOCSWINSZ in *.
  destruct (k_fds k !! fd) as [[| |]|] eqn:Hk; try discriminate;
    injection H1 as <-; simpl; rewrite Hk; simpl;
    (split; [reflexivity | split; [apply insert_insert_eq | reflexivity]]).
Qed.

Lemma set_terminal_size_last_write_wins_witness :
  k_winsz (snd (set_terminal_size
                  (snd (set_terminal_size (mk_kernel {[3 := OtherTty]} ∅ []) 3 24 80))
                  3 50 132)) = {[3 := mk_winsize 50 132 0 0]}.
Proof.
  destruct (set_terminal_size_last_write_wins (mk_kernel {[3 := OtherTty]} ∅ [])
              (snd (set_terminal_size (mk_kernel {[3 := OtherTty]} ∅ []) 3 24 80))
              3 24 80 50 132) as (_ & H & _);
    [reflexivity | unfold short_min, short_max; lia | unfold short_min, short_max; lia |].
  rewrite H. vm_compute. reflexivity.
Defined.

End WinsizeExtra.

Module NonBlockingExtra.
Import NonBlocking NonBlockingFacts.

Lemma fixed_lor_nonblock (f : Z) :
  Z.land (Z.lor f O_NONBLOCK) (Z.lnot setfl_mask) = Z.land f (Z.lnot setfl_mask).
Proof.
  assert (Hm : Z.land O_NONBLOCK setfl_mask = O_NONBLOCK) by reflexivity.
  apply Z.bits_inj'. intros n Hn.
  assert (Hb : Z.testbit O_NONBLOCK n = Z.testbit O_NONBLOCK n && Z.testbit setfl_mask n)
    by (rewrite <- Z.land_spec, Hm; reflexivity).
  rewrite ?Z.land_spec, ?Z.lor_spec, ?Z.lnot_spec by exact Hn.
  destruct (Z.testbit f n), (Z.testbit O_NONBLOCK n), (Z.testbit setfl_mask n);
    try reflexivity; discriminate Hb.
Qed.

Lemma F_SETFL_same_fixed (s : store) (fd g v : Z) :
  fl s !! fd = Some g -> Z.land g (Z.lnot setfl_mask) = Z.land v (Z.lnot setfl_mask) ->
  F_SETFL s fd v = Ok (mk_store (<[fd := v]> (fl s)) (objs s)).
Proof.
  intros Hg Hfix. unfold F_SETFL. rewrite Hg. rewrite (restore_bits g v Hfix). reflexivity.
Qed.

Lemma enter_ok (s : store) (o : nat) (fd f : Z) (orig : option Z) :
  objs s !! o = Some (mk_nb fd orig) -> fl s !! fd = Some f ->
  enter s o = Ok (mk_store (<[fd := Z.lor f O_NONBLOCK]> (fl s))
                           (<[o := mk_nb fd (Some f)]> (objs s))).
Proof.
  intros Ho Hf. unfold enter, F_GETFL. rewrite Ho. simpl. rewrite Hf.
  exact (F_SETFL_same_fixed (set_obj s o (mk_nb fd (Some f))) fd f _ Hf
           (eq_sym (fixed_lor_nonblock f))).
Qed.

Lemma exit_ok (s : store) (o : nat) (fd g h : Z) (exc : option py_exc) :
  objs s !! o = Some (mk_nb fd (Some g)) -> fl s !! fd = Some h ->
  Z.land h (Z.lnot setfl_mask) = Z.land g (Z.lnot setfl_mask) ->
  exit_ s o exc = Ok (mk_store (<[fd := g]> (fl s)) (objs s)).
Proof.
  intros Ho Hh Hfix. unfold exit_. rewrite Ho. simpl. exact (F_SETFL_same_fixed s fd h g Hh Hfix).
Qed.

(** [__enter__] changes nothing but the scope's descriptor, on which it
    adds [O_NONBLOCK] to the flags and keeps every other bit, and records
    the flags it found in [orig_fl]; on a closed descriptor it raises
    [OSError] (EBADF). *)
Theorem nonblocking_enter_adds_only_nonblock (s : store) (o : nat) (fd : Z) (orig : option Z) :
  objs s !! o = Some (mk_nb fd orig) ->
  (forall f, fl s !! fd = Some f ->
     exists s', enter s o = Ok s' /\
       fl s' = <[fd := Z.lor f O_NONBLOCK]> (fl s) /\
       objs s' = <[o := mk_nb fd (Some f)]> (objs s)) /\
  (fl s !! fd = None -> enter s o = Err (OSError EBADF)).
Proof.
  intros Ho. split.
  - intros f Hf. eexists. split; [exact (enter_ok s o fd f orig Ho Hf) | split; reflexivity].
  - intros Hf. unfold enter, F_GETFL. rewrite Ho. simpl. rewrite Hf. reflexivity.
Qed.

Lemma nonblocking_enter_adds_only_nonblock_witness :
  enter (mk_store {[4 := 32770]} {[0%nat := mk_nb 4 None]}) 0 =
    Ok (mk_store {[4 := 34818]} {[0%nat := mk_nb 4 (Some 32770)]}).
Proof.
  assert (Ho : objs (mk_store {[4 := 32770]} {[0%nat := mk_nb 4 None]}) !! 0%nat =
               Some (mk_nb 4 None)) by (vm_compute; reflexivity).
  assert (Hf : fl (mk_store {[4 := 32770]} {[0%nat := mk_nb 4 None]}) !! 4 = Some 32770)
    by (vm_compute; reflexivity).
  destruct (nonblocking_enter_adds_only_nonblock _ 0 4 None Ho) as [H _].
  destruct (H 32770 Hf) as (s' & He & Hfl & Hobj).
  rewrite He. f_equal. destruct s' as [fl' objs']. simpl in Hfl, Hobj. subst.
  vm_compute. reflexivity.
Defined.

(** Two [nonblocking] scopes on the same descriptor that overlap without
    nesting (the first one entered is exited first) leave the descriptor
    non-blocking: the second scope recorded the flags with [O_NONBLOCK]
    already set and writes them back last. *)
Theorem nonblocking_overlapping_scopes_stay_nonblocking
  (s s' : store) (a b : nat) (fd f : Z) (oa ob : option Z) (e1 e2 : option py_exc) :
  a <> b -> objs s !! a = Some (mk_nb fd oa) -> objs s !! b = Some (mk_nb fd ob) ->
  fl s !! fd = Some f ->
  run s [Enter a; Enter b; Exit a e1; Exit b e2] = Ok s' ->
  fl s' !! fd = Some (Z.lor f O_NONBLOCK).
Proof.
  intros Hab Ha Hb Hf Hrun. simpl in Hrun.
  rewrite (enter_ok s a fd f oa Ha Hf) in Hrun.
  rewrite (enter_ok _ b fd (Z.lor f O_NONBLOCK) ob) in Hrun;
    [| simpl; rewrite lookup_insert_ne by congruence; exact Hb
     | simpl; apply lookup_insert_eq].
  rewrite (exit_ok _ a fd f (Z.lor (Z.lor f O_NONBLOCK) O_NONBLOCK)) in Hrun;
    [| simpl; rewrite lookup_insert_ne by congruence; apply lookup_insert_eq
     | simpl; apply lookup_insert_eq
     | rewrite !fixed_lor_nonblock; reflexivity].
  rewrite (exit_ok _ b fd (Z.lor f O_NONBLOCK) f) in Hrun;
    [| simpl; apply lookup_insert_eq
     | simpl; apply lookup_insert_eq
     | rewrite fixed_lor_nonblock; reflexivity].
  injection Hrun as <-. simpl. apply lookup_insert_eq.
Qed.

Lemma nonblocking_overlapping_scopes_stay_nonblocking_witness :
  exists s', run (mk_store {[4 := 2]} {[0%nat := mk_nb 4 None; 1%nat := mk_nb 4 None]})
               [Enter 0; Enter 1; Exit 0 None; Exit 1 None] = Ok s' /\
             fl s' !! 4 = Some 2050.
Proof.
  eexists. split; [reflexivity|].
  apply (nonblocking_overlapping_scopes_stay_nonblocking
           (mk_store {[4 := 2]} {[0%nat := mk_nb 4 None; 1%nat := mk_nb 4 None]})
           _ 0 1 4 2 None None None None); [discriminate | reflexivity | reflexivity
                                          | reflexivity | reflexivity].
Defined.

(** Entering the same [nonblocking] object twice overwrites [orig_fl] with
    the already non-blocking flags, so its exit (and any later one) leaves
    the descriptor non-blocking instead of restoring the original flags. *)
Theorem nonblocking_reenter_loses_original (s s' : store) (a : nat) (fd f : Z) (oa : option Z)
    (exc : option py_exc) :
  objs s !! a = Some (mk_nb fd oa) -> fl s !! fd = Some f ->
  run s [Enter a; Enter a; Exit a exc] = Ok s' ->
  fl s' !! fd = Some (Z.lor f O_NONBLOCK) /\
  objs s' !! a = Some (mk_nb fd (Some (Z.lor f O_NONBLOCK))).
Proof.
  intros Ha Hf Hrun. simpl in Hrun.
  rewrite (enter_ok s a fd f oa Ha Hf) in Hrun.
  rewrite (enter_ok _ a fd (Z.lor f O_NONBLOCK) (Some f)) in Hrun;
    [| simpl; apply lookup_insert_eq | simpl; apply lookup_insert_eq].
  rewrite (exit_ok _ a fd (Z.lor f O_NONBLOCK) (Z.lor (Z.lor f O_NONBLOCK) O_NONBLOCK)) in Hrun;
    [| simpl; apply lookup_insert_eq | simpl; apply lookup_insert_eq
     | rewrite !fixed_lor_nonblock; reflexivity].
  injection Hrun as <-. simpl. rewrite !lookup_insert_eq. split; reflexivity.
Qed.

Lemma nonblocking_reenter_loses_original_witness :
  exists s', run (mk_store {[4 := 2]} {[0%nat := mk_nb 4 None]})
               [Enter 0; Enter 0; Exit 0 None] = Ok s' /\
             fl s' !! 4 = Some 2050.
Proof.
  eexists. split; [reflexivity|].
  apply (nonblocking_reenter_loses_original (mk_store {[4 := 2]} {[0%nat := mk_nb 4 None]})
           _ 0 4 2 None None); reflexivity.
Defined.

End NonBlockingExtra.

Module CacheExtra.
Import Cache CacheFacts CacheTheorems.

(** Only a positive TTL makes entries expire: with [ttl <= 0] (zero, but
    also any negative value) a cached value is returned at every later
    access, whatever the time, and nothing is recomputed. *)
Theorem cached_property_nonpositive_ttl_never_expires (p : cprop) (i : nat) (st : cstate)
    (v t : Z) :
  cp_ttl p <= 0 -> entry st i (cp_name p) = Some (v, t) ->
  forall now, get p i now st = (v, st).
Proof.
  intros Httl He now. unfold get. rewrite He.
  assert (Hf : (0 <? cp_ttl p) = false) by (apply Z.ltb_ge; exact Httl).
  rewrite Hf. reflexivity.
Qed.

Lemma cached_property_nonpositive_ttl_never_expires_witness :
  let st := snd (get (counter_prop (-5)) 1 0 (init 7)) in
  get (counter_prop (-5)) 1 1000000 st = (8, st).
Proof.
  intros st.
  apply (cached_property_nonpositive_ttl_never_expires (counter_prop (-5)) 1 st 8 0);
    [simpl; lia | reflexivity].
Defined.





(** The cache key is the getter's [__name__] only: two cached properties
    whose getters share a name share one slot per instance, so once the
    first has been read, reading the second (before the entry expires for
    its own TTL) returns the first one's value without calling its own
    getter. *)
Theorem cached_property_same_name_shares_slot (p q : cprop) (i : nat) (st : cstate) (t t' : Z) :
  entry st i (cp_name p) = None -> cp_name q = cp_name p ->
  (cp_ttl q <= 0 \/ t' - t <= cp_ttl q) ->
  get q i t' (snd (get p i t st)) = (cp_fget p (world st) i, snd (get p i t st)).
Proof.
  intros Hnone Hname Httl. unfold get at 2 3. rewrite Hnone.
  destruct (recompute_entry p i t st) as (He & _).
  unfold get. rewrite Hname, He.
  assert (Hf : ((0 <? cp_ttl q) && (cp_ttl q <? t' - t)) = false).
  { destruct Httl as [H|H].
    - rewrite (proj2 (Z.ltb_ge _ _) H). reflexivity.
    - rewrite (proj2 (Z.ltb_ge _ _) H). apply andb_false_r. }
  rewrite Hf. reflexivity.
Qed.

Lemma cached_property_same_name_shares_slot_witness :
  fst (get (mk_cprop "value" 300 (fun _ _ => 2)) 1 10
           (snd (get (mk_cprop "value" 300 (fun _ _ => 1)) 1 0 (init 0)))) = 1.
Proof.
  rewrite (cached_property_same_name_shares_slot (mk_cprop "value" 300 (fun _ _ => 1))
             (mk_cprop "value" 300 (fun _ _ => 2)) 1 (init 0) 0 10);
    [reflexivity | reflexivity | reflexivity | right; simpl; lia].
Defined.

End CacheExtra.

Module PtyControlExtra.
Import PtyControl.

(** Sequencing lemmas of the monad. *)
Lemma bind_Ok {A B} (m : M A) (k : A -> M B) (s s' : os) (a : A) :
  m s = (Ok a, s') -> bind m k s = k a s'.
Proof. intros H. unfold bind. rewrite H. reflexivity. Qed.

Lemma bind_Err {A B} (m : M A) (k : A -> M B) (s s' : os) (e : py_exc) :
  m s = (Err e, s') -> bind m k s = (Err e, s').
Proof. intros H. unfold bind. rewrite H. reflexivity. Qed.

(** The descriptor table is well formed: every open descriptor lies below
    the next one the kernel hands out. *)
Definition fd_ok (s : os) : Prop :=
  0 <= next_fd s /\ forall fd, next_fd s <= fd -> open_fds s !! fd = None.

(** A computation that leaves the set of open descriptors as it found it. *)
Definition keeps_fds {A} (m : M A) : Prop :=
  forall s, fd_ok s -> fd_ok (snd (m s)) /\ open_fds (snd (m s)) = open_fds s.

(** A continuation that closes the descriptor it is given, and otherwise
    leaves the descriptor table as it found it. *)
Definition closes_fd {A} (c : Z -> M A) : Prop :=
  forall n s, 0 <= n -> fd_ok s -> open_fds s !! n <> None ->
  fd_ok (snd (c n s)) /\ open_fds (snd (c n s)) = delete n (open_fds s).

Lemma fd_ok_log (c : syscall) (s : os) : fd_ok (log c s) <-> fd_ok s.
Proof. reflexivity. Qed.

Lemma keeps_ret {A} (a : A) : keeps_fds (ret a).
Proof. intros s H. split; [exact H | reflexivity]. Qed.

Lemma keeps_raise {A} (e : py_exc) : keeps_fds (@raise A e).
Proof. intros s H. split; [exact H | reflexivity]. Qed.

Lemma keeps_bind {A B} (m : M A) (k : A -> M B) :
  keeps_fds m -> (forall a, keeps_fds (k a)) -> keeps_fds (bind m k).
Proof.
  intros Hm Hk s H. unfold bind. destruct (Hm s H) as [H1 E1].
  destruct (m s) as [[a|e] s']; simpl in *; [| split; assumption].
  destruct (Hk a s' H1) as [H2 E2]. split; [exact H2 | congruence].
Qed.

Lemma keeps_try {A} (m : M A) (h : py_exc -> M A) :
  keeps_fds m -> (forall e, keeps_fds (h e)) -> keeps_fds (try_except m h).
Proof.
  intros Hm Hh s H. unfold try_except. destruct (Hm s H) as [H1 E1].
  destruct (m s) as [[a|e] s']; simpl in *; [split; assumption |].
  destruct (Hh e s' H1) as [H2 E2]. split; [exact H2 | congruence].
Qed.

Lemma keeps_ttyname (fd : Z) : keeps_fds (os_ttyname fd).
Proof.
  intros s H. unfold os_ttyname. destruct (ttynames _ !! fd); split; assumption || reflexivity.
Qed.

Lemma keeps_setsid : keeps_fds os_setsid.
Proof.
  intros s H. unfold os_setsid. simpl. destruct (pgrp_leader s); split; assumption || reflexivity.
Qed.

(** Opening a descriptor and handing it to a continuation that closes it
    leaves no descriptor behind. *)
Lemma keeps_open_closes {A} (path : string) (flags : Z) (c : Z -> M A) :
  closes_fd c -> keeps_fds (bind (os_open path flags) c).
Proof.
  intros Hc s H. unfold bind, os_open.
  set (s1 := log (SysOpen path flags) s).
  assert (H1 : fd_ok s1) by exact H.
  assert (Halloc : forall t, fd_ok (snd (alloc_fd path t s1)) /\
            open_fds (snd (alloc_fd path t s1)) !! fst (alloc_fd path t s1) <> None /\
            0 <= fst (alloc_fd path t s1) /\
            delete (fst (alloc_fd path t s1)) (open_fds (snd (alloc_fd path t s1)))
              = open_fds s).
  { intros t. destruct H1 as [Hn Hfree]. unfold s1, fd_ok in *. cbn in *.
    split; [split|split; [|split]].
    - lia.
    - intros fd Hfd. rewrite lookup_insert_ne by lia. apply Hfree. lia.
    - rewrite lookup_insert_eq. discriminate.
    - exact Hn.
    - apply delete_insert_id. apply Hfree. lia. }
  assert (Hgo : forall t, fd_ok (snd (c (fst (alloc_fd path t s1)) (snd (alloc_fd path t s1))))
            /\ open_fds (snd (c (fst (alloc_fd path t s1)) (snd (alloc_fd path t s1))))
               = open_fds s).
  { intros t. destruct (Halloc t) as (Ha & Hin & Hn & Hd).
    destruct (Hc _ _ Hn Ha Hin) as [Hr Er]. split; [exact Hr | congruence]. }
  destruct (String.eqb path "/dev/tty").
  - destruct (ctty s1) as [t|]; [| split; [exact H1 | reflexivity]].
    specialize (Hgo (Some t)). destruct (alloc_fd path (Some t) s1). exact Hgo.
  - destruct (existsb _ _); [| split; [exact H1 | reflexivity]].
    match goal with |- context [alloc_fd path ?t s1] =>
      specialize (Hgo t); destruct (alloc_fd path t s1) end.
    exact Hgo.
Qed.

Lemma closes_close (o : Z -> M unit) :
  closes_fd (fun fd => when_nonneg fd (os_close fd) (o fd)).
Proof.
  intros n s Hn H Hin. unfold when_nonneg.
  replace (0 <=? n) with true by lia. unfold os_close. simpl.
  destruct (open_fds s !! n) eqn:E; [| congruence].
  simpl. split; [| reflexivity]. destruct H as [H0 Hfree]. split; [exact H0 |].
  intros fd Hfd. simpl. rewrite lookup_delete_None. right. apply Hfree, Hfd.
Qed.

Lemma closes_close_then (k : M unit) (o : Z -> M unit) :
  keeps_fds k -> closes_fd (fun fd => when_nonneg fd (os_close fd ;;; k) (o fd)).
Proof.
  intros Hk n s Hn H Hin.
  destruct (closes_close o n s Hn H Hin) as [H1 E1]. revert H1 E1.
  unfold when_nonneg. replace (0 <=? n) with true by lia. unfold bind.
  destruct (os_close n s) as [[[]|e] s']; simpl; intros H1 E1; [| split; assumption].
  destruct (Hk s' H1) as [H2 E2]. split; [exact H2 | congruence].
Qed.

Lemma closes_bind {A B} (c : Z -> M A) (k : M B) :
  closes_fd c -> keeps_fds k -> closes_fd (fun fd => c fd ;;; k).
Proof.
  intros Hc Hk n s Hn H Hin. destruct (Hc n s Hn H Hin) as [H1 E1]. revert H1 E1.
  unfold bind. destruct (c n s) as [[a|e] s']; simpl; intros H1 E1; [| split; assumption].
  destruct (Hk s' H1) as [H2 E2]. split; [exact H2 | congruence].
Qed.

Lemma keeps_pty_make_controlling_tty (tty_fd : Z) :
  keeps_fds (pty_make_controlling_tty tty_fd).
Proof.
  unfold pty_make_controlling_tty.
  apply keeps_bind; [apply keeps_ttyname | intros child].
  apply keeps_bind; [| intros _].
  { apply keeps_try; [| intros; apply keeps_ret].
    apply keeps_open_closes, closes_close. }
  apply keeps_bind; [apply keeps_setsid | intros _].
  apply keeps_bind; [| intros _].
  { apply keeps_try; [| intros; apply keeps_ret].
    apply keeps_open_closes, closes_close_then, keeps_raise. }
  apply keeps_open_closes.
  apply (closes_bind (fun fd => when_nonneg fd (os_close fd) _)); [apply closes_close |].
  apply keeps_open_closes, closes_close.
Qed.

(** The process attributes [pty_make_controlling_tty] may not change on
    its own: everything but the controlling terminal, the session flag,
    the descriptors and the trace. *)
Definition same_env (s s' : os) : Prop :=
  ttynames s' = ttynames s /\ devices s' = devices s /\
  tty_devices s' = tty_devices s /\ setsid_keeps_ctty s' = setsid_keeps_ctty s /\
  next_fd s <= next_fd s'.

(** The first probe, [try: fd = os.open("/dev/tty", O_RDWR | O_NOCTTY);
    os.close(fd) except: pass], always succeeds and keeps the controlling
    terminal and the group-leader flag. *)
Lemma probe_ok (s : os) :
  exists s',
    try_except (fd <- os_open "/dev/tty" (Z.lor O_RDWR O_NOCTTY) ;;
                when_nonneg fd (os_close fd) (ret tt)) (fun _ => ret tt) s = (Ok tt, s') /\
    ctty s' = ctty s /\ pgrp_leader s' = pgrp_leader s /\ same_env s s'.
Proof.
  unfold try_except, bind, os_open, when_nonneg, os_close, ret, same_env. cbn.
  destruct (ctty s) as [t|] eqn:E; cbn.
  - destruct (0 <=? next_fd s); cbn.
    + rewrite lookup_insert_eq. cbn. eexists; split; [reflexivity |]. cbn. repeat split; first [lia | reflexivity | assumption].
    + eexists; split; [reflexivity |]. cbn. repeat split; first [lia | reflexivity | assumption].
  - eexists; split; [reflexivity |]. cbn. repeat split; first [lia | reflexivity | assumption].
Qed.

(** [pty_make_controlling_tty] closes every descriptor it opens: whatever
    the outcome, the process holds exactly the descriptors it held on
    entry. *)
Theorem pty_make_controlling_tty_no_fd_leak (tty_fd : Z) (s : os) :
  fd_ok s -> open_fds (snd (pty_make_controlling_tty tty_fd s)) = open_fds s.
Proof. intros H. apply (keeps_pty_make_controlling_tty tty_fd s H). Qed.

Definition leader_os : os :=
  mk_os (Some "/dev/pts/0") true {[5 := "/dev/pts/3"]} ["/dev/pts/3"; "/dev/pts/0"]
        ["/dev/pts/3"; "/dev/pts/0"] {[5 := "/dev/pts/3"]} 6 false [].

Lemma pty_make_controlling_tty_no_fd_leak_witness :
  fd_ok PtyControlFacts.normal_os /\
  open_fds (snd (pty_make_controlling_tty 5 PtyControlFacts.normal_os))
    = open_fds PtyControlFacts.normal_os.
Proof.
  assert (H : fd_ok PtyControlFacts.normal_os).
  { split; [vm_compute; discriminate |].
    intros fd Hfd. cbn in Hfd. cbn. rewrite lookup_singleton_ne by lia. reflexivity. }
  split; [exact H | apply (pty_make_controlling_tty_no_fd_leak 5 _ H)].
Defined.



(** A process group leader cannot start a session: [os.setsid()] raises
    EPERM, which propagates, and the process keeps its controlling
    terminal and its group-leader status. *)
Theorem pty_make_controlling_tty_group_leader (tty_fd : Z) (s : os) (name : string) :
  ttynames s !! tty_fd = Some name ->
  pgrp_leader s = true ->
  fst (pty_make_controlling_tty tty_fd s) = Err (OSError EPERM) /\
  ctty (snd (pty_make_controlling_tty tty_fd s)) = ctty s /\
  pgrp_leader (snd (pty_make_controlling_tty tty_fd s)) = true.
Proof.
  intros Hn Hl. unfold pty_make_controlling_tty.
  rewrite (bind_Ok _ _ s (log (SysTtyname tty_fd) s) name)
    by (unfold os_ttyname; cbn; rewrite Hn; reflexivity).
  cbv beta.
  destruct (probe_ok (log (SysTtyname tty_fd) s)) as (s2 & E & Ec & Ep & _).
  rewrite (bind_Ok _ _ _ _ _ E).
  rewrite (bind_Err _ _ s2 (log SysSetsid s2) (OSError EPERM)).
  - cbn. rewrite Ec, Ep. cbn. auto.
  - unfold os_setsid. cbn. rewrite Ep. cbn. rewrite Hl. reflexivity.
Qed.

Lemma pty_make_controlling_tty_group_leader_witness :
  (ttynames leader_os !! 5 = Some "/dev/pts/3" /\ pgrp_leader leader_os = true) /\
  (fst (pty_make_controlling_tty 5 leader_os) = Err (OSError EPERM) /\
   ctty (snd (pty_make_controlling_tty 5 leader_os)) = ctty leader_os /\
   pgrp_leader (snd (pty_make_controlling_tty 5 leader_os)) = true).
Proof.
  assert (H1 : ttynames leader_os !! 5 = Some "/dev/pts/3") by (vm_compute; reflexivity).
  assert (H2 : pgrp_leader leader_os = true) by reflexivity.
  split; [split; assumption | apply (pty_make_controlling_tty_group_leader 5 _ _ H1 H2)].
Defined.



End PtyControlExtra.

Module DaemonExtra.
Import Daemon DaemonFacts.



(** [daemonize] never changes the process that calls it: whatever the OS
    answers, the caller keeps its parent, session, working directory,
    umask, controlling terminal and standard streams, and it is only ever
    at the first fork, waiting for its child, returned 0 or exited 1. *)
Theorem daemonize_caller_untouched (a : args) (p0 : proc) (st : sys) (q : proc) :
  reachable a p0 st -> procs st !! pid p0 = Some q ->
  (ppid q = ppid p0 /\ sid q = sid p0 /\ cwd q = cwd p0 /\ umask q = umask p0 /\
   ctty q = ctty p0 /\ fd0 q = fd0 p0 /\ fd1 q = fd1 p0 /\ fd2 q = fd2 p0) /\
  (pc q = AtFork1 \/ (exists c, pc q = AtWait c) \/ pc q = Returned 0 \/ pc q = Exited 1).
Proof.
  intros R Hq. destruct (reachable_inv a p0 st R) as (_ & I1 & _ & _).
  destruct (I1 _ _ Hq) as [Hpid Hinv]. unfold pinv in Hinv.
  assert (Hol : orig_like p0 q -> (pc q = AtFork1 \/ (exists c, pc q = AtWait c) \/
                 pc q = Returned 0 \/ pc q = Exited 1) ->
            (ppid q = ppid p0 /\ sid q = sid p0 /\ cwd q = cwd p0 /\ umask q = umask p0 /\
             ctty q = ctty p0 /\ fd0 q = fd0 p0 /\ fd1 q = fd1 p0 /\ fd2 q = fd2 p0) /\
            (pc q = AtFork1 \/ (exists c, pc q = AtWait c) \/ pc q = Returned 0 \/
             pc q = Exited 1)).
  { intros (H1 & H2 & H3 & H4 & H5 & (F0 & F1 & F2) & _) Hpc. tauto. }
  destruct (pc q) eqn:Epc;
    try (destruct Hinv as ((G1 & G2 & _) & _); congruence);
    try (destruct Hinv as ((G1 & _) & _); congruence).
  - apply Hol; [apply Hinv | tauto].
  - apply Hol; [apply Hinv | right; left; exists child; reflexivity].
  - destruct Hinv as [(-> & _ & Ho & _) | (_ & (G1 & _) & _)]; [| congruence].
    apply Hol; [exact Ho | tauto].
  - destruct Hinv as [(_ & -> & Ho) | ((G1 & G2 & _) & _)]; [| congruence].
    apply Hol; [exact Ho | tauto].
  - destruct Hinv as (G1 & _). congruence.
Qed.

Lemma daemonize_caller_untouched_witness :
  (reachable default_args demo_p0 demo_ok /\
   procs demo_ok !! pid demo_p0 = Some demo_caller_returned) /\
  (cwd demo_caller_returned = "/home/user" /\ umask demo_caller_returned = 18 /\
   ctty demo_caller_returned = Some "/dev/pts/0").
Proof.
  assert (R : reachable default_args demo_p0 demo_ok)
    by (apply (run_sched_rtc _ _ _ sched_ok); vm_compute; reflexivity).
  assert (L : procs demo_ok !! pid demo_p0 = Some demo_caller_returned)
    by (vm_compute; reflexivity).
  destruct (daemonize_caller_untouched default_args demo_p0 demo_ok _ R L)
    as ((_ & _ & C & U & T & _) & _).
  exact (conj (conj R L) (conj C (conj U T))).
Defined.





End DaemonExtra.
